(** * flytekit.clients.raw: the authenticated RPC client and its retry wrapper

    A shallow embedding of [flytekit/clients/raw.py]: the credential store of
    [RawSynchronousFlyteClient], the four credential refresh handlers, the
    handler selector and the decorators [_handle_rpc_error] and
    [_handle_invalid_create_request].

    Conventions.
    - A Python [str] is modelled by the [string] of the bytes of its UTF-8
      encoding, so that [encode("utf-8")] is the identity on the bytes; the
      text itself is a list of code points ([Utf8.encode] gives its bytes),
      and the white space of [str.strip] is the white space of Python, on
      code points.
    - Python exceptions are values of [Exn]; a computation that may raise and
      that mutates the client is a function [World -> Res A * World] (the
      state survives a raise, as in Python).
    - Calls to the loggers have no effect on the client nor on the control flow
      and are left out. *)

From Stdlib Require Import String Ascii List ZArith NArith Lia Bool Arith.
From Stdlib Require Import DecimalString.
Import ListNotations.
Local Open Scope string_scope.

(** ** UTF-8 *)

Module Utf8.

(** A code point that a Python [str] can hold and encode: below 0x110000 and
    not a surrogate. *)
Definition scalar (c : N) : Prop :=
  (c < 1114112 /\ ~ (55296 <= c < 57344))%N.

Definition byte (n : N) : ascii := ascii_of_N n.

(** The bytes of one code point. *)
Definition encode_cp (c : N) : string :=
  (if c <? 128 then String (byte c) EmptyString
   else if c <? 2048 then
     String (byte (192 + c / 64)) (String (byte (128 + c mod 64)) EmptyString)
   else if c <? 65536 then
     String (byte (224 + c / 4096))
    (String (byte (128 + (c / 64) mod 64))
    (String (byte (128 + c mod 64)) EmptyString))
   else
     String (byte (240 + c / 262144))
    (String (byte (128 + (c / 4096) mod 64))
    (String (byte (128 + (c / 64) mod 64))
    (String (byte (128 + c mod 64)) EmptyString))))%N.

(** [text.encode("utf-8")], as a string of bytes. *)
Fixpoint encode (text : list N) : string :=
  match text with
  | [] => EmptyString
  | c :: rest => encode_cp c ++ encode rest
  end.

(** A continuation byte. *)
Definition continuation (y : N) : bool := ((128 <=? y) && (y <? 192))%N.

End Utf8.

(** ** Python string primitives used by the module *)

Module PyStr.

(** [c.lower()] for one ASCII character. *)
Definition lower_ascii (c : ascii) : ascii :=
  let n := nat_of_ascii c in
  if andb (65 <=? n)%nat (n <=? 90)%nat then ascii_of_nat (n + 32) else c.

(** [s.lower()]. *)
Fixpoint lower (s : string) : string :=
  match s with
  | EmptyString => EmptyString
  | String c r => String (lower_ascii c) (lower r)
  end.

(** [c.isspace()] for a code point [c]: TAB, LF, VT, FF, CR, FS, GS, RS, US,
    SPACE, NEL (U+0085), NBSP (U+00A0), U+1680, U+2000 to U+200A, U+2028,
    U+2029, U+202F, U+205F and U+3000. *)
Definition isspace (c : N) : bool :=
  ((9 <=? c) && (c <=? 13) || (28 <=? c) && (c <=? 32)
   || (c =? 133) || (c =? 160) || (c =? 5760)
   || (8192 <=? c) && (c <=? 8202)
   || (c =? 8232) || (c =? 8233) || (c =? 8239) || (c =? 8287)
   || (c =? 12288))%N.

(** The code point of the two-byte sequence [x y], when it is one. *)
Definition decode2 (x y : N) : option N :=
  (if (194 <=? x) && (x <? 224) && Utf8.continuation y
   then Some ((x - 192) * 64 + (y - 128))
   else None)%N.

(** The code point of the three-byte sequence [x y z], when it is one. *)
Definition decode3 (x y z : N) : option N :=
  (if (224 <=? x) && (x <? 240) && Utf8.continuation y && Utf8.continuation z
   then let c := (x - 224) * 4096 + (y - 128) * 64 + (z - 128) in
        if 2048 <=? c then Some c else None
   else None)%N.

Definition space_opt (o : option N) : bool :=
  match o with Some c => isspace c | None => false end.

(** [s.lstrip()]: the first character is decoded and dropped when it is
    white space. No code point above U+FFFF is white space, so a sequence of
    four bytes is never dropped. *)
Fixpoint lstrip (s : string) : string :=
  match s with
  | EmptyString => EmptyString
  | String a r1 =>
      let x := N_of_ascii a in
      if (x <? 128)%N then (if isspace x then lstrip r1 else s)
      else
        match r1 with
        | EmptyString => s
        | String b r2 =>
            let y := N_of_ascii b in
            if space_opt (decode2 x y) then lstrip r2
            else
              match r2 with
              | EmptyString => s
              | String c r3 =>
                  if space_opt (decode3 x y (N_of_ascii c)) then lstrip r3 else s
              end
        end
  end.

(** [s.rstrip()]: the string is cut where what remains is white space only. *)
Fixpoint rstrip (s : string) : string :=
  match s with
  | EmptyString => EmptyString
  | String a r =>
      match lstrip s with
      | EmptyString => EmptyString
      | String _ _ => String a (rstrip r)
      end
  end.

(** [s.strip()]. *)
Definition strip (s : string) : string := rstrip (lstrip s).

(** [s.startswith(p)]. *)
Fixpoint startswith (p s : string) : bool :=
  match p, s with
  | EmptyString, _ => true
  | String a p', String b s' => if Ascii.eqb a b then startswith p' s' else false
  | String _ _, EmptyString => false
  end.

(** [old in s]. *)
Fixpoint contains (old s : string) : bool :=
  match s with
  | EmptyString => startswith old EmptyString
  | String _ r => orb (startswith old s) (contains old r)
  end.

(** The scan of [s.replace(old, new)] for a non-empty [old]: occurrences are
    found from left to right and do not overlap; [skip] counts the
    characters of the current occurrence that remain to be dropped. *)
Fixpoint replace_scan (old new : string) (skip : nat) (s : string) : string :=
  match s with
  | EmptyString => EmptyString
  | String c r =>
      match skip with
      | S k => replace_scan old new k r
      | O =>
          if startswith old s
          then new ++ replace_scan old new (String.length old - 1) r
          else String c (replace_scan old new 0 r)
      end
  end.

(** With an empty [old], Python inserts [new] before every character and at
    the end. *)
Fixpoint replace_empty (new s : string) : string :=
  match s with
  | EmptyString => new
  | String c r => new ++ String c (replace_empty new r)
  end.

(** [s.replace(old, new)]. *)
Definition replace (old new s : string) : string :=
  match old with
  | EmptyString => replace_empty new s
  | String _ _ => replace_scan old new 0 s
  end.

(** [sep.join(l)]. *)
Definition join (sep : string) (l : list string) : string := String.concat sep l.

(** [str(z)] for an integer. *)
Definition of_Z (z : Z) : string := NilZero.string_of_int (Z.to_int z).

End PyStr.

(** ** Python text, as code points *)

Module PyText.

Fixpoint dropwhile {A} (f : A -> bool) (l : list A) : list A :=
  match l with
  | [] => []
  | x :: r => if f x then dropwhile f r else l
  end.

(** [t.lstrip()]: the leading white space is removed. *)
Definition lstrip (t : list N) : list N := dropwhile PyStr.isspace t.

(** [t.rstrip()]: the trailing white space is removed. *)
Definition rstrip (t : list N) : list N := rev (dropwhile PyStr.isspace (rev t)).

(** [t.strip()]. *)
Definition strip (t : list N) : list N := rstrip (lstrip t).

(** [token] is [text] without its leading and trailing white space:
    nothing but white space was removed on both sides, and [token] neither
    begins nor ends with white space. *)
Definition trimmed (text token : list N) : Prop :=
  exists l r,
    text = (l ++ token ++ r)%list
    /\ forallb PyStr.isspace l = true
    /\ forallb PyStr.isspace r = true
    /\ (forall c rest, token = c :: rest -> PyStr.isspace c = false)
    /\ (forall c front, token = (front ++ [c])%list -> PyStr.isspace c = false).

End PyText.

(** ** [base64.b64encode] (RFC 4648, standard alphabet, with padding) *)

Module Base64.

Definition alphabet : string :=
  "ABCDEFGHIJKLMNOPQRSTUVWXYZabcdefghijklmnopqrstuvwxyz0123456789+/".

(** The character of a 6-bit value. *)
Definition sextet (n : N) : ascii :=
  match String.get (N.to_nat (N.land n 63)) alphabet with
  | Some c => c
  | None => "="%char
  end.

Fixpoint encode_bytes (l : list N) : string :=
  match l with
  | [] => EmptyString
  | [a] =>
      String (sextet (N.shiftr a 2))
     (String (sextet (N.shiftl (N.land a 3) 4)) "==")
  | [a; b] =>
      String (sextet (N.shiftr a 2))
     (String (sextet (N.lor (N.shiftl (N.land a 3) 4) (N.shiftr b 4)))
     (String (sextet (N.shiftl (N.land b 15) 2)) "="))
  | a :: b :: c :: rest =>
      String (sextet (N.shiftr a 2))
     (String (sextet (N.lor (N.shiftl (N.land a 3) 4) (N.shiftr b 4)))
     (String (sextet (N.lor (N.shiftl (N.land b 15) 2) (N.shiftr c 6)))
     (String (sextet (N.land c 63))
             (encode_bytes rest))))
  end.

(** The bytes of an (ASCII) string. *)
Definition bytes_of (s : string) : list N := map N_of_ascii (list_ascii_of_string s).

(** [base64.b64encode(s.encode("utf-8")).decode("utf-8")]. *)
Definition b64encode (s : string) : string := encode_bytes (bytes_of s).

End Base64.

(** ** Data model *)

(** [grpc.StatusCode]. *)
Inductive StatusCode :=
| OK | CANCELLED | UNKNOWN | INVALID_ARGUMENT | DEADLINE_EXCEEDED | NOT_FOUND
| ALREADY_EXISTS | PERMISSION_DENIED | RESOURCE_EXHAUSTED | FAILED_PRECONDITION
| ABORTED | OUT_OF_RANGE | UNIMPLEMENTED | INTERNAL | UNAVAILABLE | DATA_LOSS
| UNAUTHENTICATED.

Definition StatusCode_eqb (a b : StatusCode) : bool :=
  match a, b with
  | OK, OK | CANCELLED, CANCELLED | UNKNOWN, UNKNOWN
  | INVALID_ARGUMENT, INVALID_ARGUMENT | DEADLINE_EXCEEDED, DEADLINE_EXCEEDED
  | NOT_FOUND, NOT_FOUND | ALREADY_EXISTS, ALREADY_EXISTS
  | PERMISSION_DENIED, PERMISSION_DENIED | RESOURCE_EXHAUSTED, RESOURCE_EXHAUSTED
  | FAILED_PRECONDITION, FAILED_PRECONDITION | ABORTED, ABORTED
  | OUT_OF_RANGE, OUT_OF_RANGE | UNIMPLEMENTED, UNIMPLEMENTED
  | INTERNAL, INTERNAL | UNAVAILABLE, UNAVAILABLE | DATA_LOSS, DATA_LOSS
  | UNAUTHENTICATED, UNAUTHENTICATED => true
  | _, _ => false
  end.

(** A [grpc.RpcError]: its [code()] and its [str(e)]. *)
Record RpcError := { code : StatusCode; rpc_str : string }.

(** The exceptions that the module raises or lets through. *)
Inductive Exn :=
| ERpcError (e : RpcError)
| ValueError (msg : string)
| AttributeError (msg : string)
| IndexError (msg : string)
| KeyError (key : string)
| JSONDecodeError
| OSError (msg : string)
| CalledProcessError (cmd : list string) (returncode : Z)
| FlyteAuthenticationException (msg : string)
| FlyteEntityAlreadyExistsException (e : RpcError)
| FlyteEntityNotExistException (e : RpcError)
| ExternalError (msg : string).

(** [auth_pb2.PublicClientAuthConfigResponse]. *)
Record PublicClientAuthConfigResponse := {
  client_id : string;
  redirect_uri : string;
  scopes : list string;
  authorization_metadata_key : string
}.

(** [auth_pb2.OAuth2MetadataResponse] (the two fields that are read). *)
Record OAuth2MetadataResponse := {
  authorization_endpoint : string;
  token_endpoint : string
}.

(** The call metadata: a list of (key, value) pairs. The key is the
    [Optional[str]] given to [set_access_token]. *)
Definition Metadata := list (option string * string).

(** The fields of [RawSynchronousFlyteClient] that the module reads or writes
    after construction. *)
Record RawSynchronousFlyteClient := {
  _metadata : option Metadata;
  _public_client_config : option PublicClientAuthConfigResponse;
  _oauth2_metadata : option OAuth2MetadataResponse
}.

Definition with_metadata (c : RawSynchronousFlyteClient) (m : option Metadata)
  : RawSynchronousFlyteClient :=
  {| _metadata := m;
     _public_client_config := _public_client_config c;
     _oauth2_metadata := _oauth2_metadata c |}.

(** The state in which [__init__] leaves the client: the two discovery
    answers (or [None]) and no metadata. *)
Definition new_client (pcc : option PublicClientAuthConfigResponse)
    (oam : option OAuth2MetadataResponse) : RawSynchronousFlyteClient :=
  {| _metadata := None; _public_client_config := pcc; _oauth2_metadata := oam |}.

(** ** The credential store *)

(** [set_access_token(self, access_token, authorization_header_key)]. *)
Definition set_access_token (self : RawSynchronousFlyteClient) (access_token : string)
    (authorization_header_key : option string) : RawSynchronousFlyteClient :=
  with_metadata self (Some [(authorization_header_key, "Bearer " ++ access_token)]).

(** The default value of the parameter [authorization_header_key]. *)
Definition default_authorization_header_key : option string := Some "authorization".

(** [check_access_token(self, access_token)]; [inl] is a raised exception
    ([self._metadata[0]] on an empty list). *)
Definition check_access_token (self : RawSynchronousFlyteClient) (access_token : string)
  : Exn + bool :=
  match _metadata self with
  | None => inr false
  | Some [] => inl (IndexError "list index out of range")
  | Some ((_, v) :: _) => inr (String.eqb access_token (PyStr.replace "Bearer " "" v))
  end.

(** The header key in lower case. *)
Definition lowered (k : option string) : option string := option_map PyStr.lower k.

(** ** The world outside the client *)

(** The methods of the client that are wrapped by [_handle_rpc_error], in the
    order of the source. Each one forwards to the stub method of its name. *)
Inductive Method :=
| create_task | list_task_ids_paginated | list_tasks_paginated | get_task
| create_workflow | list_workflow_ids_paginated | list_workflows_paginated | get_workflow
| create_launch_plan | get_launch_plan | get_active_launch_plan | update_launch_plan
| list_launch_plan_ids_paginated | list_launch_plans_paginated
| list_active_launch_plans_paginated
| update_named_entity
| create_execution | recover_execution | get_execution | get_execution_data
| list_executions_paginated | terminate_execution | relaunch_execution
| get_node_execution | get_node_execution_data | list_node_executions_paginated
| list_node_executions_for_task_paginated
| get_task_execution | get_task_execution_data | list_task_executions_paginated
| list_projects | register_project | update_project
| update_project_domain_attributes | update_workflow_attributes
| get_project_domain_attributes | get_workflow_attributes | list_matchable_attributes.

(** The refresh handlers, as the values that [_get_refresh_handler] returns. *)
Inductive RefreshHandler :=
| refresh_standard       (* _refresh_credentials_standard *)
| refresh_basic          (* _refresh_credentials_basic *)
| refresh_from_command   (* _refresh_credentials_from_command *)
| refresh_noop.          (* _refresh_credentials_noop *)

(** What the client does to the outside, in order. [Sleep ms] stands for
    [time.sleep(ms / 1000)]. *)
Inductive Event :=
| Invoke (m : Method) (metadata : option Metadata)
| Refresh (h : RefreshHandler)
| Sleep (ms : Z)
| Post (url : string) (data headers : list (string * string))
| Run (command : list string).

(** The persistent authorization-code client of [flytekit.clis.auth.credentials]
    (a singleton), seen through the attributes that the module reads. *)
Record AuthorizationClient := {
  has_valid_credentials : bool;
  can_refresh_token : bool;
  credentials : option string  (* credentials.access_token, when credentials is set *)
}.

Inductive JsonValue := JStr (s : string) | JNum (z : Z).

(** [str(v)], as the f-string of [set_access_token] formats the token. *)
Definition JsonValue_str (v : JsonValue) : string :=
  match v with JStr s => s | JNum z => PyStr.of_Z z end.

(** A [requests.Response]: [json] is [None] when the body is not JSON. *)
Record HttpResponse := {
  status_code : Z;
  text : string;
  json : option (list (string * JsonValue))
}.

(** A [subprocess.CompletedProcess]. *)
Record CompletedProcess := { returncode : Z; stdout : string; stderr : string }.

(** The mutable state: the client ([self], [args[0]]), the singleton of the
    authorization-code flow, the number of stub invocations made so far and the
    trace of events. *)
Record World := {
  client : RawSynchronousFlyteClient;
  auth_client : option AuthorizationClient;
  rpc_calls : nat;
  trace : list Event
}.

Definition initial_world (c : RawSynchronousFlyteClient) : World :=
  {| client := c; auth_client := None; rpc_calls := 0; trace := [] |}.

(** Everything that the module reads from outside: the configuration
    ([flytekit.configuration.creds]), the stub, the HTTP library, the process
    library and the authorization-code client. None of it is defined in the
    module, so it is a parameter of the model. The stub's answer may depend on
    the method, on how many invocations came before, on the metadata sent and on
    the request. *)
Record Environment (Request Response : Type) := {
  AUTH_MODE : string;
  SCOPES : list string;
  CLIENT_ID : option string;
  CLIENT_CREDENTIALS_SECRET : option string;
  COMMAND : list string;
  stub : Method -> nat -> option Metadata -> Request -> RpcError + Response;
  requests_post : string -> list (string * string) -> list (string * string) -> HttpResponse;
  subprocess_run : list string -> Exn + CompletedProcess;
  str_CalledProcessError : list string -> Z -> string;
  get_client : string -> string -> list string -> string -> string ->
               option AuthorizationClient -> AuthorizationClient;
  refresh_access_token : AuthorizationClient -> Exn + AuthorizationClient;
  start_authorization_flow : AuthorizationClient -> Exn + AuthorizationClient;
  clear : AuthorizationClient -> AuthorizationClient
}.

Arguments AUTH_MODE {Request Response} _.
Arguments SCOPES {Request Response} _.
Arguments CLIENT_ID {Request Response} _.
Arguments CLIENT_CREDENTIALS_SECRET {Request Response} _.
Arguments COMMAND {Request Response} _.
Arguments stub {Request Response} _ _ _ _ _.
Arguments requests_post {Request Response} _ _ _ _.
Arguments subprocess_run {Request Response} _ _.
Arguments str_CalledProcessError {Request Response} _ _ _.
Arguments get_client {Request Response} _ _ _ _ _ _ _.
Arguments refresh_access_token {Request Response} _ _.
Arguments start_authorization_flow {Request Response} _ _.
Arguments clear {Request Response} _ _.

(** ** Computations that mutate the world and may raise *)

Inductive Res (A : Type) :=
| Ok (a : A)
| Raised (e : Exn).
Arguments Ok {A} a.
Arguments Raised {A} e.

Definition M (A : Type) : Type := World -> Res A * World.

Definition ret {A} (a : A) : M A := fun w => (Ok a, w).

Definition raise {A} (e : Exn) : M A := fun w => (Raised e, w).

Definition bind {A B} (m : M A) (k : A -> M B) : M B :=
  fun w => match m w with
           | (Ok a, w') => k a w'
           | (Raised e, w') => (Raised e, w')
           end.

(** [try: m  except <the exceptions on which h is defined> as e: h e]. *)
Definition try_except {A} (m : M A) (h : Exn -> option (M A)) : M A :=
  fun w => match m w with
           | (Ok a, w') => (Ok a, w')
           | (Raised e, w') =>
               match h e with
               | Some k => k w'
               | None => (Raised e, w')
               end
           end.

Definition lift {A} (r : Exn + A) : M A :=
  match r with inl e => raise e | inr a => ret a end.

Definition emit (ev : Event) : M unit :=
  fun w => (Ok tt, {| client := client w; auth_client := auth_client w;
                      rpc_calls := rpc_calls w; trace := trace w ++ [ev] |}).

Definition get_self : M RawSynchronousFlyteClient := fun w => (Ok (client w), w).

Definition put_self (c : RawSynchronousFlyteClient) : M unit :=
  fun w => (Ok tt, {| client := c; auth_client := auth_client w;
                      rpc_calls := rpc_calls w; trace := trace w |}).

Definition get_auth_client : M (option AuthorizationClient) :=
  fun w => (Ok (auth_client w), w).

Definition put_auth_client (a : AuthorizationClient) : M unit :=
  fun w => (Ok tt, {| client := client w; auth_client := Some a;
                      rpc_calls := rpc_calls w; trace := trace w |}).

Declare Scope py_scope.
Delimit Scope py_scope with py.
Notation "x <- m ;; k" := (bind m (fun x => k))
  (at level 61, m at next level, right associativity) : py_scope.
Notation "m ;; k" := (bind m (fun _ => k))
  (at level 61, right associativity) : py_scope.
Local Open Scope py_scope.

(** ** The module *)

Section Client.

Context {Request Response : Type}.
Variable env : Environment Request Response.

(** What a wrapped method returns: [None] or a response of the stub. *)
Inductive value :=
| VNone
| VResponse (r : Response).

(** [s or None] for a string. *)
Definition or_None (s : string) : option string :=
  if String.eqb s "" then None else Some s.

(** [self.set_access_token(...)] on the client of the world. *)
Definition self_set_access_token (access_token : string)
    (authorization_header_key : option string) : M unit :=
  self <- get_self ;;
  put_self (set_access_token self access_token authorization_header_key).

Definition no_admin_response : string :=
  "Raw Flyte client attempting client credentials flow but no response from Admin detected. Check your Admin server's .well-known endpoints to make sure they're working as expected.".

(** [client.credentials.access_token]. *)
Definition credentials_access_token (a : AuthorizationClient) : M string :=
  match credentials a with
  | Some t => ret t
  | None => raise (AttributeError "'NoneType' object has no attribute 'access_token'")
  end.

(** [_refresh_credentials_standard(flyte_client)]. The first statement
    reads an attribute of [public_client_config] before the test for
    [None]. *)
Definition _refresh_credentials_standard : M unit :=
  self <- get_self ;;
  authorization_header_key <-
    match _public_client_config self with
    | Some pcc => ret (or_None (authorization_metadata_key pcc))
    | None => raise (AttributeError
                "'NoneType' object has no attribute 'authorization_metadata_key'")
    end ;;
  match _oauth2_metadata self, _public_client_config self with
  | Some oam, Some pcc =>
      singleton <- get_auth_client ;;
      let a := get_client env (redirect_uri pcc) (client_id pcc) (scopes pcc)
                 (authorization_endpoint oam) (token_endpoint oam) singleton in
      put_auth_client a ;;
      adopt <-
        (if has_valid_credentials a
         then t <- credentials_access_token a ;;
              same <- lift (check_access_token self t) ;;
              ret (negb same)
         else ret false) ;;
      if adopt then
        t <- credentials_access_token a ;;
        self_set_access_token t authorization_header_key ;;
        put_auth_client (clear env a)
      else
        a' <- (if can_refresh_token a
               then lift (refresh_access_token env a)
               else lift (start_authorization_flow env a)) ;;
        put_auth_client a' ;;
        t <- credentials_access_token a' ;;
        self_set_access_token t authorization_header_key
  | _, _ => raise (ValueError no_admin_response)
  end.

(** [get_secret()]. *)
Definition get_secret : Exn + string :=
  match CLIENT_CREDENTIALS_SECRET env with
  | Some (String c r) => inr (String c r)
  | _ => inl (FlyteAuthenticationException "No secret could be found")
  end.

(** ["{}".format(x)] for an optional string. *)
Definition format_opt (x : option string) : string :=
  match x with Some s => s | None => "None" end.

(** [get_basic_authorization_header(client_id, client_secret)]. *)
Definition get_basic_authorization_header (client_id : option string)
    (client_secret : string) : string :=
  let concated := format_opt client_id ++ ":" ++ client_secret in
  "Basic " ++ Base64.b64encode concated.

(** [response[key]] on the decoded body. *)
Fixpoint dict_get (key : string) (d : list (string * JsonValue)) : Exn + JsonValue :=
  match d with
  | [] => inl (KeyError key)
  | (k, v) :: r => if String.eqb k key then inr v else dict_get key r
  end.

(** [get_token(token_endpoint, authorization_header, scope)]. *)
Definition get_token (token_endpoint authorization_header : string)
    (scope : option string) : M (JsonValue * JsonValue) :=
  let headers := [("Authorization", authorization_header);
                  ("Cache-Control", "no-cache");
                  ("Accept", "application/json");
                  ("Content-Type", "application/x-www-form-urlencoded")] in
  let body := ([("grant_type", "client_credentials")] ++
               match scope with Some s => [("scope", s)] | None => [] end)%list in
  emit (Post token_endpoint body headers) ;;
  let response := requests_post env token_endpoint body headers in
  if negb (Z.eqb (status_code response) 200)
  then raise (FlyteAuthenticationException "Non-200 received from IDP")
  else
    match json response with
    | None => raise JSONDecodeError
    | Some d =>
        access_token <- lift (dict_get "access_token" d) ;;
        expires_in <- lift (dict_get "expires_in" d) ;;
        ret (access_token, expires_in)
    end.

(** [_refresh_credentials_basic(flyte_client)]. *)
Definition _refresh_credentials_basic : M unit :=
  self <- get_self ;;
  match _oauth2_metadata self, _public_client_config self with
  | Some oam, Some pcc =>
      let token_endpoint := token_endpoint oam in
      let scopes := match SCOPES env with [] => scopes pcc | l => l end in
      let scopes := PyStr.join "," scopes in
      client_secret <- lift get_secret ;;
      let authorization_header :=
        get_basic_authorization_header (CLIENT_ID env) client_secret in
      te <- get_token token_endpoint authorization_header (Some scopes) ;;
      let authorization_header_key := or_None (authorization_metadata_key pcc) in
      self_set_access_token (JsonValue_str (fst te)) authorization_header_key
  | _, _ => raise (ValueError no_admin_response)
  end.

(** [subprocess.run(command, capture_output=True, text=True, check=True)]. *)
Definition subprocess_run_check (command : list string) : M CompletedProcess :=
  emit (Run command) ;;
  p <- lift (subprocess_run env command) ;;
  if Z.eqb (returncode p) 0 then ret p
  else raise (CalledProcessError command (returncode p)).

(** [_refresh_credentials_from_command(flyte_client)]. *)
Definition _refresh_credentials_from_command : M unit :=
  let command := COMMAND env in
  output <- try_except (subprocess_run_check command)
    (fun e => match e with
              | CalledProcessError c rc =>
                  Some (raise (FlyteAuthenticationException
                         ("Problems refreshing token with command: "
                            ++ str_CalledProcessError env c rc)))
              | _ => None
              end) ;;
  self_set_access_token (PyStr.strip (stdout output)) default_authorization_header_key.

(** [_refresh_credentials_noop(flyte_client)]. *)
Definition _refresh_credentials_noop : M unit := ret tt.

(** [_get_refresh_handler(auth_mode)]. *)
Definition _get_refresh_handler (auth_mode : string) : Exn + RefreshHandler :=
  if String.eqb auth_mode "standard" then inr refresh_standard
  else if orb (String.eqb auth_mode "basic") (String.eqb auth_mode "client_credentials")
  then inr refresh_basic
  else if String.eqb auth_mode "external_process" then inr refresh_from_command
  else inl (ValueError ("Invalid auth mode [" ++ auth_mode ++
         "] specified. Please update the creds config to use a valid value")).

(** The call [refresh_handler_fn(args[0])]. *)
Definition call_refresh_handler (h : RefreshHandler) : M unit :=
  emit (Refresh h) ;;
  match h with
  | refresh_standard => _refresh_credentials_standard
  | refresh_basic => _refresh_credentials_basic
  | refresh_from_command => _refresh_credentials_from_command
  | refresh_noop => _refresh_credentials_noop
  end.

(** *** The decorators *)

Definition max_retries : nat := 3.
Definition max_wait_time : Z := 1000.

(** How one iteration of the [for] loop ends: by [return v], or by reaching
    the end of the body. *)
Inductive Flow :=
| Return (v : value)
| Continue.

(** The body of the loop of [_handle_rpc_error(retry)(fn)], at index [i]. *)
Definition handler_body (retry : bool) (fn : Request -> M value) (req : Request)
    (i : nat) : M Flow :=
  try_except (v <- fn req ;; ret (Return v))
    (fun ex =>
       match ex with
       | ERpcError e =>
           Some
             (if StatusCode_eqb (code e) UNAUTHENTICATED then
                if (i =? max_retries - 1)%nat
                then raise (FlyteAuthenticationException (rpc_str e))
                else
                  refresh_handler_fn <- lift (_get_refresh_handler (AUTH_MODE env)) ;;
                  call_refresh_handler refresh_handler_fn ;;
                  ret Continue
              else if StatusCode_eqb (code e) ALREADY_EXISTS then
                raise (FlyteEntityAlreadyExistsException e)
              else if StatusCode_eqb (code e) NOT_FOUND then
                raise (FlyteEntityNotExistException e)
              else
                if orb (negb retry) (i =? max_retries - 1)%nat
                then raise (ERpcError e)
                else
                  let wait_time := Z.min (200 * 2 ^ Z.of_nat i) max_wait_time in
                  emit (Sleep wait_time) ;;
                  ret Continue)
       | _ => None
       end).

(** [for i in <indices>: body], falling off the end with [None]. *)
Fixpoint for_range (body : nat -> M Flow) (indices : list nat) : M value :=
  match indices with
  | [] => ret VNone
  | i :: rest =>
      f <- body i ;;
      match f with
      | Return v => ret v
      | Continue => for_range body rest
      end
  end.

(** [_handle_rpc_error(retry)(fn)]. *)
Definition _handle_rpc_error (retry : bool) (fn : Request -> M value)
    (req : Request) : M value :=
  for_range (handler_body retry fn req) (seq 0 max_retries).

(** [_handle_invalid_create_request(fn)]: the result of [fn] is dropped; the
    branch on [INVALID_ARGUMENT] only logs. *)
Definition _handle_invalid_create_request (fn : Request -> M value)
    (create_request : Request) : M value :=
  try_except (fn create_request ;; ret VNone)
    (fun ex =>
       match ex with
       | ERpcError e =>
           (* if e.code() == INVALID_ARGUMENT: two calls to the logger *)
           Some (raise (ERpcError e))
       | _ => None
       end).

(** *** The methods *)

(** [self._stub.<Method>(request, metadata=self._metadata)]. *)
Definition stub_invoke (m : Method) (request : Request) : M value :=
  fun w =>
    let metadata := _metadata (client w) in
    let w' := {| client := client w; auth_client := auth_client w;
                 rpc_calls := S (rpc_calls w);
                 trace := trace w ++ [Invoke m metadata] |} in
    match stub env m (rpc_calls w) metadata request with
    | inl e => (Raised (ERpcError e), w')
    | inr r => (Ok (VResponse r), w')
    end.

(** The argument of [@_handle_rpc_error(...)] on each method. *)
Definition retry_of (m : Method) : bool :=
  match m with
  | create_task | create_workflow | create_launch_plan | update_launch_plan
  | update_named_entity | create_execution | recover_execution
  | terminate_execution | relaunch_execution | register_project | update_project
  | update_project_domain_attributes | update_workflow_attributes => false
  | _ => true
  end.

(** The methods that carry [@_handle_invalid_create_request]. *)
Definition create_decorated (m : Method) : bool :=
  match m with
  | create_task | create_workflow | create_launch_plan => true
  | _ => false
  end.

(** The function that [_handle_rpc_error] receives: the method body, under
    [@_handle_invalid_create_request] where the source has it. *)
Definition decorated (m : Method) : Request -> M value :=
  if create_decorated m
  then _handle_invalid_create_request (stub_invoke m)
  else stub_invoke m.

(** The method as the class exposes it. *)
Definition call (m : Method) (request : Request) : M value :=
  _handle_rpc_error (retry_of m) (decorated m) request.

(** *** Reading a trace *)

Definition is_invoke (ev : Event) : bool :=
  match ev with Invoke _ _ => true | _ => false end.

Definition invocations (t : list Event) : nat := length (filter is_invoke t).
Definition refreshes (t : list Event) : list RefreshHandler :=
  flat_map (fun ev => match ev with Refresh h => [h] | _ => [] end) t.
Definition sleeps (t : list Event) : list Z :=
  flat_map (fun ev => match ev with Sleep ms => [ms] | _ => [] end) t.
(** *** Scenarios *)

(** The world after one more stub invocation of [m]. *)
Definition invoked (m : Method) (w : World) : World :=
  {| client := client w; auth_client := auth_client w;
     rpc_calls := S (rpc_calls w);
     trace := trace w ++ [Invoke m (_metadata (client w))] |}.

(** The world after a sleep of [ms] milliseconds. *)
Definition slept (ms : Z) (w : World) : World :=
  {| client := client w; auth_client := auth_client w;
     rpc_calls := rpc_calls w; trace := trace w ++ [Sleep ms] |}.

(** A status code of the last branch of the classification. *)
Definition other_code (c : StatusCode) : bool :=
  negb (StatusCode_eqb c UNAUTHENTICATED)
  && negb (StatusCode_eqb c ALREADY_EXISTS)
  && negb (StatusCode_eqb c NOT_FOUND).

(** [unauthenticated_rounds m req n w = Some w'] when, from [w], the
    underlying invocation raises UNAUTHENTICATED [n] times in a row, each
    failure being followed by a refresh of the credentials that returns;
    [w'] is the world before the next attempt. *)
Fixpoint unauthenticated_rounds (m : Method) (req : Request) (n : nat) (w : World)
  : option World :=
  match n with
  | O => Some w
  | S k =>
      match decorated m req w with
      | (Raised (ERpcError e), w1) =>
          if StatusCode_eqb (code e) UNAUTHENTICATED then
            match _get_refresh_handler (AUTH_MODE env) with
            | inr h =>
                match call_refresh_handler h w1 with
                | (Ok _, w2) => unauthenticated_rounds m req k w2
                | (Raised _, _) => None
                end
            | inl _ => None
            end
          else None
      | _ => None
      end
  end.

End Client.

Arguments value : clear implicits.
Arguments VNone {Response}.
Arguments VResponse {Response} r.
Arguments Flow : clear implicits.
Arguments Return {Response} v.
Arguments Continue {Response}.

(** ** A concrete environment, to run the model *)

Module Demo.

Definition unauthenticated : RpcError :=
  {| code := UNAUTHENTICATED; rpc_str := "token expired" |}.
Definition unavailable : RpcError :=
  {| code := UNAVAILABLE; rpc_str := "connection reset" |}.
Definition already_exists : RpcError :=
  {| code := ALREADY_EXISTS; rpc_str := "task exists" |}.
Definition not_found : RpcError :=
  {| code := NOT_FOUND; rpc_str := "no such task" |}.

Definition pcc : PublicClientAuthConfigResponse :=
  {| client_id := "flytectl"; redirect_uri := "http://localhost:53593/callback";
     scopes := ["offline"; "all"]; authorization_metadata_key := "flyte-authorization" |}.
Definition oam : OAuth2MetadataResponse :=
  {| authorization_endpoint := "https://idp/authorize";
     token_endpoint := "https://idp/token" |}.

(** An environment whose stub answers the k-th invocation with the k-th
    element of [script] (and with ["done"] afterwards), whose token endpoint
    answers with [status], and whose command prints a token. *)
Definition environment (mode : string) (script : list (RpcError + string))
    (status : Z) : Environment string string :=
  {| AUTH_MODE := mode;
     SCOPES := [];
     CLIENT_ID := Some "cid";
     CLIENT_CREDENTIALS_SECRET := Some "sec";
     COMMAND := ["print-token"];
     stub := fun _ k _ _ => nth k script (inr "done");
     requests_post := fun _ _ _ =>
       {| status_code := status; text := "";
          json := Some [("access_token", JStr "idp-token"); ("expires_in", JNum 3600)] |};
     subprocess_run := fun _ =>
       inr {| returncode := 0; stdout := " cmd-token
"; stderr := "" |};
     str_CalledProcessError := fun _ _ => "non-zero exit status";
     get_client := fun _ _ _ _ _ o =>
       match o with
       | Some a => a
       | None => {| has_valid_credentials := false; can_refresh_token := false;
                    credentials := None |}
       end;
     refresh_access_token := fun a =>
       inr {| has_valid_credentials := true; can_refresh_token := true;
              credentials := Some "refreshed" |};
     start_authorization_flow := fun a =>
       inr {| has_valid_credentials := true; can_refresh_token := true;
              credentials := Some "interactive" |};
     clear := fun a =>
       {| has_valid_credentials := false; can_refresh_token := false;
          credentials := None |} |}.

Definition w0 : World := initial_world (new_client (Some pcc) (Some oam)).

End Demo.

(** * flytekit.types.iterator.json_iterator

    The transformer between a Python iterator of JSON values and a blob
    literal in the JSON-lines format. A JSON value is a parameter. What the
    module does to files is recorded as a list of events; [jsonlines],
    [FlyteFile] and the file system are not defined in the repository. *)

Module JsonIterator.

Inductive Error :=
| ValueError (msg : string)
| TypeTransformerFailedError (msg : string)
| StopIteration (msg : string)
| OSError (msg : string).

(** [_core_types.BlobType.BlobDimensionality]. *)
Inductive BlobDimensionality := SINGLE | MULTIPART.

Definition BlobDimensionality_eqb (a b : BlobDimensionality) : bool :=
  match a, b with
  | SINGLE, SINGLE | MULTIPART, MULTIPART => true
  | _, _ => false
  end.

(** [_core_types.BlobType]. *)
Record BlobType := { format : string; dimensionality : BlobDimensionality }.

(** [LiteralType], by the one field that the transformer sets and reads. *)
Record LiteralType := { blob : option BlobType }.

Record BlobMetadata := { type : BlobType }.
Record Blob := { metadata : BlobMetadata; uri : string }.

(** [Scalar] and [Literal]: [blob'] is [None] for a scalar of another kind,
    [scalar] is [None] for a literal that is not a scalar. *)
Record Scalar := { blob' : option Blob }.
Record Literal := { scalar : option Scalar }.

(** The classes that [guess_python_type] can return. *)
Inductive PythonType := JSONIterator_class.

Inductive FileEvent (JSON : Type) :=
| OpenWrite (path : string)
| Write (json_val : JSON)
| CloseWriter
| CloseFile (path : string)
| OpenRead (path : string).
Arguments OpenWrite {JSON} path.
Arguments Write {JSON} json_val.
Arguments CloseWriter {JSON}.
Arguments CloseFile {JSON} path.
Arguments OpenRead {JSON} path.

(** A [jsonlines.Reader] with its iterator: the values that remain to be read
    and whether [close()] was called. *)
Record Reader (JSON : Type) := { pending : list JSON; closed : bool }.
Arguments pending {JSON} _.
Arguments closed {JSON} _.

Section Model.

Variable JSON : Type.

(** [str(self)], [str(literal_type)] and the text of the f-string of
    [to_python_value]. *)
Variable str_self : string.
Variable str_literal_type : LiteralType -> string.
Variable str_cannot_convert : Literal -> string.

(** [FlyteFile.new_remote_file().path]. *)
Variable remote_path : string.

(** [fs.open(uri, "r")] followed by [jsonlines.Reader]: the values of the lines
    of the file, or the exception of [open]. *)
Variable open_read : string -> Error + list JSON.

(** [next(self._reader_iter)]. *)
Definition reader_next (r : Reader JSON) : (Error + JSON) * Reader JSON :=
  match pending r with
  | x :: rest => (inr x, {| pending := rest; closed := closed r |})
  | [] => (inl (StopIteration ""), r)
  end.

(** [JSONIterator.__next__]. *)
Definition __next__ (self : Reader JSON) : (Error + JSON) * Reader JSON :=
  match reader_next self with
  | (inl (StopIteration _), r) =>
      (inl (StopIteration "File handler is exhausted"),
       {| pending := pending r; closed := true |})
  | other => other
  end.

(** [list(iterator)]: [__next__] until [StopIteration]; [None] when [fuel]
    calls were not enough. *)
Fixpoint collect (fuel : nat) (self : Reader JSON)
  : option (Error + list JSON) * Reader JSON :=
  match fuel with
  | O => (None, self)
  | S fuel' =>
      match __next__ self with
      | (inr x, r) =>
          match collect fuel' r with
          | (Some (inr l), r') => (Some (inr (x :: l)), r')
          | other => other
          end
      | (inl (StopIteration _), r) => (Some (inr []), r)
      | (inl e, r) => (Some (inl e), r)
      end
  end.

Definition JSON_ITERATOR_FORMAT : string := "JSONL".

(** [get_literal_type(self, t)]. *)
Definition get_literal_type : LiteralType :=
  {| blob := Some {| format := JSON_ITERATOR_FORMAT; dimensionality := SINGLE |} |}.

(** The loop of [to_literal]: every value is written and [empty] becomes
    [False]. *)
Fixpoint write_all (python_val : list JSON) (empty : bool)
  : bool * list (FileEvent JSON) :=
  match python_val with
  | [] => (empty, [])
  | json_val :: rest =>
      let (empty', events) := write_all rest false in
      (empty', Write json_val :: events)
  end.

(** [to_literal(self, ctx, python_val, python_type, expected)], for an
    iterator that yields the values of [python_val] and stops. *)
Definition to_literal (python_val : list JSON)
  : (Error + Literal) * list (FileEvent JSON) :=
  let (empty, writes) := write_all python_val true in
  let events := ([OpenWrite remote_path] ++ writes
                   ++ [CloseWriter; CloseFile remote_path])%list in
  if empty
  then (inl (ValueError "The iterator is empty."), events)
  else
    let meta := {| type := {| format := JSON_ITERATOR_FORMAT;
                              dimensionality := SINGLE |} |} in
    (inr {| scalar := Some {| blob' := Some {| metadata := meta;
                                               uri := remote_path |} |} |},
     events).


(** [guess_python_type(self, literal_type)]. *)
Definition guess_python_type (literal_type : LiteralType) : Error + PythonType :=
  match blob literal_type with
  | Some b =>
      if andb (BlobDimensionality_eqb (dimensionality b) SINGLE)
              (String.eqb (format b) JSON_ITERATOR_FORMAT)
      then inr JSONIterator_class
      else inl (ValueError ("Transformer " ++ str_self ++ " cannot reverse "
                              ++ str_literal_type literal_type ++ "."))
  | None => inl (ValueError ("Transformer " ++ str_self ++ " cannot reverse "
                               ++ str_literal_type literal_type ++ "."))
  end.

End Model.

End JsonIterator.

(** * flytekit.sensor.sensor_engine

    [SensorEngine.async_get], as the sequential run of the coroutine. Python
    objects, [cloudpickle], [importlib], [jsonpickle] and the sensor itself
    are parameters, and so are the four keys of [flytekit.sensor.base_sensor]. *)

Module SensorEngine.

Inductive Error :=
| KeyError (key : string)
| Failure (msg : string).

(** The states of [flyteidl.admin.agent_pb2] that the module imports. *)
Inductive State := PENDING | RUNNING | SUCCEEDED.

Definition State_eqb (a b : State) : bool :=
  match a, b with
  | PENDING, PENDING | RUNNING, RUNNING | SUCCEEDED, SUCCEEDED => true
  | _, _ => false
  end.

(** [TaskLog(uri=..., name=...).to_flyte_idl()]. *)
Record TaskLog := { uri : string; name : string }.

(** [Resource]; [outputs] is always [None]. *)
Record Resource := { state : State; message : string }.

Record GetTaskResponse := { resource : Resource; log_links : list TaskLog }.

Section Model.

Variables PyObj PyModule SensorDef : Type.

Variables SENSOR_MODULE SENSOR_NAME SENSOR_CONFIG_PKL INPUTS : string.

(** [bool(x)]. *)
Variable truthy : PyObj -> bool.
(** [{}]. *)
Variable empty_dict : PyObj.
(** [cloudpickle.loads(resource_meta)], a dict. *)
Variable loads : string -> Error + list (string * PyObj).
(** [importlib.import_module(name=...)]. *)
Variable import_module : PyObj -> Error + PyModule.
(** [getattr(sensor_module, name)]. *)
Variable getattr : PyModule -> PyObj -> Error + SensorDef.
(** [jsonpickle.decode(...)]. *)
Variable decode : PyObj -> Error + PyObj.
(** [await sensor_def("sensor", config=sensor_config).poke] on the keyword
    arguments [inputs], as the truth value of its result. *)
Variable poke : SensorDef -> option PyObj -> PyObj -> Error + bool.

(** [meta.get(key)]. *)
Fixpoint get (meta : list (string * PyObj)) (key : string) : option PyObj :=
  match meta with
  | [] => None
  | (k, v) :: rest => if String.eqb k key then Some v else get rest key
  end.

(** [meta[key]]. *)
Definition getitem (meta : list (string * PyObj)) (key : string) : Error + PyObj :=
  match get meta key with
  | Some v => inr v
  | None => inl (KeyError key)
  end.

Definition bind {A B} (m : Error + A) (k : A -> Error + B) : Error + B :=
  match m with inl e => inl e | inr a => k a end.

(** [async_get(self, context, resource_meta)]. *)
Definition async_get (resource_meta : string) : Error + GetTaskResponse :=
  bind (loads resource_meta) (fun meta =>
  bind (getitem meta SENSOR_MODULE) (fun module_name =>
  bind (import_module module_name) (fun sensor_module =>
  bind (getitem meta SENSOR_NAME) (fun sensor_name =>
  bind (getattr sensor_module sensor_name) (fun sensor_def =>
  bind (match get meta SENSOR_CONFIG_PKL with
        | Some v =>
            if truthy v
            then bind (getitem meta SENSOR_CONFIG_PKL) (fun pkl =>
                 bind (decode pkl) (fun c => inr (Some c)))
            else inr None
        | None => inr None
        end) (fun sensor_config =>
  let inputs := match get meta INPUTS with Some v => v | None => empty_dict end in
  let log_links := [{| uri := "sensor.com"; name := "Sensor Console" |}] in
  bind (poke sensor_def sensor_config inputs) (fun poked =>
  let cur_state := if poked : bool then SUCCEEDED else PENDING in
  let cur_state := SUCCEEDED in
  let log_links :=
    if State_eqb cur_state SUCCEEDED
    then (log_links ++ [{| uri := "sensor.com"; name := "Sensor SUCCEEDED" |}])%list
    else log_links in
  inr {| resource := {| state := cur_state; message := "Sensor is running" |};
         log_links := log_links |}))))))).

End Model.

End SensorEngine.

(** * Properties *)

Example b64_rfc4648_1 : Base64.b64encode "f" = "Zg==".
Proof. reflexivity. Qed.
Example b64_rfc4648_2 : Base64.b64encode "fo" = "Zm8=".
Proof. reflexivity. Qed.
Example b64_rfc4648_3 : Base64.b64encode "foobar" = "Zm9vYmFy".
Proof. reflexivity. Qed.
Example replace_ex : PyStr.replace "Bearer " "" "Bearer Bearer x" = "x".
Proof. reflexivity. Qed.
Example replace_ex2 : PyStr.replace "ab" "-" "aababab." = "a---.".
Proof. reflexivity. Qed.
Example strip_ex : PyStr.strip "  a b
" = "a b".
Proof. reflexivity. Qed.

Example set_then_check_abc :
  check_access_token (set_access_token (new_client None None) "abc" default_authorization_header_key) "abc"
  = inr true.
Proof. reflexivity. Qed.
Example set_then_check_xyz :
  check_access_token (set_access_token (new_client None None) "abc" default_authorization_header_key) "xyz"
  = inr false.
Proof. reflexivity. Qed.


Example demo_list_tasks :
  call (Demo.environment "external_process" [inl Demo.unauthenticated; inr "page"] 200)
       list_tasks_paginated "req" Demo.w0
  = (Ok (VResponse "page"),
     {| client := set_access_token (client Demo.w0) "cmd-token" (Some "authorization");
        auth_client := None; rpc_calls := 2;
        trace := [Invoke list_tasks_paginated None; Refresh refresh_from_command;
                  Run ["print-token"];
                  Invoke list_tasks_paginated
                    (Some [(Some "authorization", "Bearer cmd-token")])] |}).
Proof. reflexivity. Qed.

Example demo_backoff :
  sleeps (trace (snd (call (Demo.environment "basic"
            [inl Demo.unavailable; inl Demo.unavailable; inr "page"] 200)
          get_task "req" Demo.w0))) = [200; 400]%Z.
Proof. reflexivity. Qed.

Example demo_standard :
  fst (call (Demo.environment "standard" [inl Demo.unauthenticated; inr "x"] 200)
          get_task "req" Demo.w0) = Ok (VResponse "x").
Proof. reflexivity. Qed.

(** ** Python strings *)

Section Replace.

Variables old new : string.

Lemma startswith_app (p t : string) : PyStr.startswith p (p ++ t) = true.
Proof.
  induction p as [|a p IH]; simpl; [reflexivity|].
  now rewrite Ascii.eqb_refl.
Qed.

(** The characters that remain to be dropped are dropped. *)
Lemma replace_scan_skip (u t : string) :
  PyStr.replace_scan old new (String.length u) (u ++ t)
  = PyStr.replace_scan old new 0 t.
Proof.
  induction u as [|a u IH]; simpl.
  - destruct t; reflexivity.
  - exact IH.
Qed.

(** A string without occurrence of [old] is left as it is. *)
Lemma replace_scan_absent (t : string) :
  PyStr.contains old t = false -> PyStr.replace_scan old new 0 t = t.
Proof.
  induction t as [|c t IH]; intro H; [reflexivity|].
  cbn [PyStr.contains] in H. apply orb_false_iff in H as [H1 H2].
  cbn [PyStr.replace_scan]. rewrite H1, IH by assumption. reflexivity.
Qed.

End Replace.

(** Removing ["Bearer "] from ["Bearer " ++ t] removes it from [t] as well. *)
Lemma replace_bearer_prefix (t : string) :
  PyStr.replace "Bearer " "" ("Bearer " ++ t) = PyStr.replace "Bearer " "" t.
Proof.
  unfold PyStr.replace.
  change ("Bearer " ++ t) with (String "B" ("earer " ++ t)).
  cbn [PyStr.replace_scan].
  change (PyStr.startswith "Bearer " (String "B" ("earer " ++ t)))
    with (PyStr.startswith "Bearer " ("Bearer " ++ t)).
  rewrite startswith_app.
  change (String.length "Bearer " - 1) with (String.length "earer ").
  rewrite replace_scan_skip. reflexivity.
Qed.

Lemma replace_bearer_absent (t : string) :
  PyStr.contains "Bearer " t = false -> PyStr.replace "Bearer " "" t = t.
Proof. intro H. unfold PyStr.replace. now apply replace_scan_absent. Qed.

(** ** The credential store *)

Section CredentialStore.

Variable self : RawSynchronousFlyteClient.

(** The store keeps the key that it is given, and only the metadata
    change. *)
Lemma set_access_token_metadata (t : string) (k : option string) :
  _metadata (set_access_token self t k) = Some [(k, "Bearer " ++ t)]
  /\ _public_client_config (set_access_token self t k) = _public_client_config self
  /\ _oauth2_metadata (set_access_token self t k) = _oauth2_metadata self.
Proof. repeat split. Qed.

(** What [check_access_token] computes after [set_access_token]. *)
Lemma check_after_set (t c : string) (k : option string) :
  check_access_token (set_access_token self t k) c
  = inr (String.eqb c (PyStr.replace "Bearer " "" t)).
Proof.
  unfold check_access_token, set_access_token, with_metadata; cbn [_metadata].
  now rewrite replace_bearer_prefix.
Qed.

(** For a token in which ["Bearer "] does not occur, the check is the
    comparison with the stored token. *)
Lemma check_after_set_plain (t c : string) (k : option string) :
  PyStr.contains "Bearer " t = false ->
  (check_access_token (set_access_token self t k) c = inr true <-> c = t).
Proof.
  intro H. rewrite check_after_set, replace_bearer_absent by assumption.
  split.
  - intro E. injection E as E. now apply String.eqb_eq.
  - intros ->. now rewrite String.eqb_refl.
Qed.

(** Before any [set_access_token] the check answers [False]. *)
Lemma check_before_set (pcc : option PublicClientAuthConfigResponse)
    (oam : option OAuth2MetadataResponse) (c : string) :
  check_access_token (new_client pcc oam) c = inr false.
Proof. reflexivity. Qed.

(** C6 (the code at the failing input). [set_access_token] stores the header
    key as it is given: with the key ["Authorization"] the metadata carry
    ["Authorization"], which is not its lower-case form; whatever the key,
    it is stored unchanged. *)
Theorem set_access_token_keeps_case (t : string) :
  _metadata (set_access_token self t (Some "Authorization"))
    = Some [(Some "Authorization", "Bearer " ++ t)]
  /\ lowered (Some "Authorization") = Some "authorization"
  /\ _metadata (set_access_token self t (Some "Authorization"))
     <> Some [(lowered (Some "Authorization"), "Bearer " ++ t)]
  /\ forall k, exists v, _metadata (set_access_token self t k) = Some [(k, v)].
Proof.
  split; [reflexivity|]. split; [reflexivity|]. split.
  - cbn. intro H. discriminate H.
  - intro k. eexists. reflexivity.
Qed.

(** C7 (the code at the failing input). After [set_access_token("Bearer x")]
    the check of ["Bearer x"] answers [False] and the check of ["x"] answers
    [True]: [replace] removes every occurrence of ["Bearer "], not only the
    prefix that [set_access_token] added. *)
Theorem check_access_token_nested_prefix (k : option string) :
  check_access_token (set_access_token self "Bearer x" k) "Bearer x" = inr false
  /\ check_access_token (set_access_token self "Bearer x" k) "x" = inr true.
Proof. split; reflexivity. Qed.

End CredentialStore.

(** ** White space in UTF-8 text *)

Section Whitespace.

Local Open Scope N_scope.

(** Facts on a quotient and a remainder, for [lia]. *)
Ltac divmod c k :=
  let Hm := fresh "Hm" in
  let Hd := fresh "Hd" in
  pose proof (N.mod_upper_bound c k ltac:(lia)) as Hm;
  pose proof (N.div_mod' c k) as Hd;
  let q := fresh "q" in
  let r := fresh "r" in
  set (q := c / k) in *; set (r := c mod k) in *; clearbody q r.

Lemma byte_value (n : N) : n < 256 -> N_of_ascii (Utf8.byte n) = n.
Proof. apply N_ascii_embedding. Qed.

Lemma isspace_bound (c : N) : PyStr.isspace c = true -> c < 12289.
Proof.
  unfold PyStr.isspace.
  rewrite !orb_true_iff, !andb_true_iff, !N.leb_le, !N.eqb_eq. lia.
Qed.

Lemma lstrip_cons (a : ascii) (r1 : string) :
  PyStr.lstrip (String a r1)
  = if N_of_ascii a <? 128
    then (if PyStr.isspace (N_of_ascii a) then PyStr.lstrip r1 else String a r1)
    else
      match r1 with
      | EmptyString => String a r1
      | String b r2 =>
          if PyStr.space_opt (PyStr.decode2 (N_of_ascii a) (N_of_ascii b))
          then PyStr.lstrip r2
          else
            match r2 with
            | EmptyString => String a r1
            | String c r3 =>
                if PyStr.space_opt
                     (PyStr.decode3 (N_of_ascii a) (N_of_ascii b) (N_of_ascii c))
                then PyStr.lstrip r3 else String a r1
            end
      end.
Proof. destruct r1 as [|b [|c r3]]; reflexivity. Qed.

Lemma rstrip_cons (a : ascii) (r : string) :
  PyStr.rstrip (String a r)
  = match PyStr.lstrip (String a r) with
    | EmptyString => EmptyString
    | String _ _ => String a (PyStr.rstrip r)
    end.
Proof. reflexivity. Qed.

Lemma decode2_None (x y : N) : ~ (194 <= x < 224) -> PyStr.decode2 x y = None.
Proof.
  intro H. unfold PyStr.decode2.
  destruct (194 <=? x) eqn:E1; [|reflexivity].
  destruct (x <? 224) eqn:E2; [|reflexivity].
  apply N.leb_le in E1. apply N.ltb_lt in E2. lia.
Qed.

Lemma decode3_None (x y z : N) : ~ (224 <= x < 240) -> PyStr.decode3 x y z = None.
Proof.
  intro H. unfold PyStr.decode3.
  destruct (224 <=? x) eqn:E1; [|reflexivity].
  destruct (x <? 240) eqn:E2; [|reflexivity].
  apply N.leb_le in E1. apply N.ltb_lt in E2. lia.
Qed.

Lemma continuation_true (y : N) : 128 <= y < 192 -> Utf8.continuation y = true.
Proof.
  intro H. unfold Utf8.continuation.
  apply andb_true_iff. split; [apply N.leb_le|apply N.ltb_lt]; lia.
Qed.

Lemma decode2_Some (x y : N) :
  194 <= x < 224 -> 128 <= y < 192 ->
  PyStr.decode2 x y = Some ((x - 192) * 64 + (y - 128)).
Proof.
  intros Hx Hy. unfold PyStr.decode2. rewrite (continuation_true y Hy).
  replace (194 <=? x) with true by (symmetry; apply N.leb_le; lia).
  replace (x <? 224) with true by (symmetry; apply N.ltb_lt; lia).
  reflexivity.
Qed.

Lemma decode3_Some (x y z : N) :
  224 <= x < 240 -> 128 <= y < 192 -> 128 <= z < 192 ->
  2048 <= (x - 224) * 4096 + (y - 128) * 64 + (z - 128) ->
  PyStr.decode3 x y z = Some ((x - 224) * 4096 + (y - 128) * 64 + (z - 128)).
Proof.
  intros Hx Hy Hz Hc. unfold PyStr.decode3.
  rewrite (continuation_true y Hy), (continuation_true z Hz).
  replace (224 <=? x) with true by (symmetry; apply N.leb_le; lia).
  replace (x <? 240) with true by (symmetry; apply N.ltb_lt; lia).
  cbn [andb]. cbv zeta.
  replace (2048 <=? (x - 224) * 4096 + (y - 128) * 64 + (z - 128)) with true
    by (symmetry; apply N.leb_le; lia).
  reflexivity.
Qed.

(** A string that begins with a byte that is not the first byte of a white
    space character is left as it is. *)
Lemma lstrip_keeps (x : N) (t : string) :
  128 <= x < 256 -> ~ (194 <= x < 240) ->
  PyStr.lstrip (String (Utf8.byte x) t) = String (Utf8.byte x) t.
Proof.
  intros Hx Hn. rewrite lstrip_cons, byte_value by lia.
  replace (x <? 128) with false by (symmetry; apply N.ltb_ge; lia).
  destruct t as [|b [|c r3]]; try reflexivity.
  - rewrite decode2_None by lia. reflexivity.
  - rewrite decode2_None, decode3_None by lia. reflexivity.
Qed.

(** The first character of a UTF-8 text is dropped exactly when it is white
    space. *)
Lemma lstrip_encode_cp (c : N) (t : string) :
  c < 1114112 ->
  PyStr.lstrip (Utf8.encode_cp c ++ t)
  = if PyStr.isspace c then PyStr.lstrip t else (Utf8.encode_cp c ++ t)%string.
Proof.
  intro Hc. unfold Utf8.encode_cp.
  destruct (c <? 128) eqn:E1; [apply N.ltb_lt in E1|apply N.ltb_ge in E1].
  { cbn [append]. rewrite lstrip_cons, byte_value by lia.
    replace (c <? 128) with true by (symmetry; apply N.ltb_lt; lia).
    reflexivity. }
  destruct (c <? 2048) eqn:E2; [apply N.ltb_lt in E2|apply N.ltb_ge in E2].
  { cbn [append]. rewrite lstrip_cons.
    assert (Hx : 194 <= 192 + c / 64 < 224) by (divmod c 64; lia).
    assert (Hy : 128 <= 128 + c mod 64 < 192) by (divmod c 64; lia).
    assert (Hv : (192 + c / 64 - 192) * 64 + (128 + c mod 64 - 128) = c)
      by (divmod c 64; lia).
    rewrite !byte_value by lia.
    replace (192 + c / 64 <? 128) with false by (symmetry; apply N.ltb_ge; lia).
    rewrite decode2_Some, Hv by assumption. cbn [PyStr.space_opt].
    destruct (PyStr.isspace c); [reflexivity|].
    destruct t as [|z r3]; [reflexivity|].
    rewrite decode3_None by lia. reflexivity. }
  destruct (c <? 65536) eqn:E3; [apply N.ltb_lt in E3|apply N.ltb_ge in E3].
  { cbn [append]. rewrite lstrip_cons.
    assert (Hq : c / 4096 = c / 64 / 64) by (rewrite N.Div0.div_div; reflexivity).
    assert (Hx : 224 <= 224 + c / 4096 < 240)
      by (rewrite Hq; divmod c 64; divmod q 64; lia).
    assert (Hy : 128 <= 128 + (c / 64) mod 64 < 192) by (divmod (c / 64) 64; lia).
    assert (Hz : 128 <= 128 + c mod 64 < 192) by (divmod c 64; lia).
    assert (Hv : (224 + c / 4096 - 224) * 4096 + (128 + (c / 64) mod 64 - 128) * 64
                 + (128 + c mod 64 - 128) = c)
      by (rewrite Hq; divmod c 64; divmod q 64; lia).
    rewrite !byte_value by lia.
    replace (224 + c / 4096 <? 128) with false by (symmetry; apply N.ltb_ge; lia).
    rewrite decode2_None by lia. cbn [PyStr.space_opt].
    rewrite decode3_Some by (try assumption; rewrite Hv; exact E2).
    rewrite Hv. cbn [PyStr.space_opt].
    destruct (PyStr.isspace c); reflexivity. }
  assert (Hs : PyStr.isspace c = false).
  { destruct (PyStr.isspace c) eqn:E; [|reflexivity].
    apply isspace_bound in E. lia. }
  rewrite Hs. cbn [append].
  assert (Hx : 240 <= 240 + c / 262144 < 256) by (divmod c 262144; lia).
  apply lstrip_keeps; lia.
Qed.

Definition encodable (c : N) : Prop := c < 1114112.

Lemma scalar_encodable (l : list N) : Forall Utf8.scalar l -> Forall encodable l.
Proof. apply Forall_impl. intros c [H _]. exact H. Qed.

Lemma dropwhile_Forall {A} (P : A -> Prop) (f : A -> bool) (l : list A) :
  Forall P l -> Forall P (PyText.dropwhile f l).
Proof.
  induction 1 as [|x l Hx Hl IH]; cbn [PyText.dropwhile]; [constructor|].
  destruct (f x); [exact IH|now constructor].
Qed.

Lemma lstrip_encode (l : list N) :
  Forall encodable l ->
  PyStr.lstrip (Utf8.encode l) = Utf8.encode (PyText.lstrip l).
Proof.
  unfold PyText.lstrip.
  induction 1 as [|c l Hc Hl IH]; [reflexivity|].
  cbn [Utf8.encode PyText.dropwhile]. rewrite lstrip_encode_cp by exact Hc.
  destruct (PyStr.isspace c); [exact IH|reflexivity].
Qed.

Lemma encode_cp_cons (c : N) : exists a r, Utf8.encode_cp c = String a r.
Proof.
  unfold Utf8.encode_cp.
  destruct (c <? 128); [|destruct (c <? 2048); [|destruct (c <? 65536)]];
    eexists; eexists; reflexivity.
Qed.

Lemma encode_empty (l : list N) : Utf8.encode l = EmptyString -> l = [].
Proof.
  destruct l as [|c l]; [reflexivity|]. cbn [Utf8.encode].
  destruct (encode_cp_cons c) as (a & r & ->). intro H. discriminate H.
Qed.

(** In the middle of a character nothing is cut. *)
Lemma rstrip_continuation (y : N) (t : string) :
  128 <= y < 192 ->
  PyStr.rstrip (String (Utf8.byte y) t) = String (Utf8.byte y) (PyStr.rstrip t).
Proof.
  intro Hy. rewrite rstrip_cons, lstrip_keeps by lia. reflexivity.
Qed.

Lemma rstrip_encode_cp (c : N) (t : string) :
  c < 1114112 ->
  PyStr.rstrip (Utf8.encode_cp c ++ t)
  = match PyStr.lstrip (Utf8.encode_cp c ++ t) with
    | EmptyString => EmptyString
    | String _ _ => (Utf8.encode_cp c ++ PyStr.rstrip t)%string
    end.
Proof.
  intro Hc. unfold Utf8.encode_cp.
  destruct (c <? 128) eqn:E1; [reflexivity|apply N.ltb_ge in E1].
  destruct (c <? 2048) eqn:E2; [apply N.ltb_lt in E2|apply N.ltb_ge in E2].
  { cbn [append]. rewrite rstrip_cons.
    rewrite (rstrip_continuation (128 + c mod 64)) by (divmod c 64; lia).
    reflexivity. }
  destruct (c <? 65536) eqn:E3; [apply N.ltb_lt in E3|apply N.ltb_ge in E3].
  { cbn [append]. rewrite rstrip_cons.
    rewrite (rstrip_continuation (128 + (c / 64) mod 64))
      by (divmod (c / 64) 64; lia).
    rewrite (rstrip_continuation (128 + c mod 64)) by (divmod c 64; lia).
    reflexivity. }
  cbn [append]. rewrite rstrip_cons.
  rewrite (rstrip_continuation (128 + (c / 4096) mod 64))
    by (divmod (c / 4096) 64; lia).
  rewrite (rstrip_continuation (128 + (c / 64) mod 64))
    by (divmod (c / 64) 64; lia).
  rewrite (rstrip_continuation (128 + c mod 64)) by (divmod c 64; lia).
  reflexivity.
Qed.

End Whitespace.

Section Dropwhile.

Context {A : Type}.
Variable f : A -> bool.

Lemma dropwhile_all (l : list A) : forallb f l = true -> PyText.dropwhile f l = [].
Proof.
  induction l as [|x l IH]; cbn [forallb PyText.dropwhile]; [reflexivity|].
  intro H. apply andb_true_iff in H as [-> H]. auto.
Qed.

Lemma dropwhile_nil_all (l : list A) : PyText.dropwhile f l = [] -> forallb f l = true.
Proof.
  induction l as [|x l IH]; cbn [forallb PyText.dropwhile]; [reflexivity|].
  destruct (f x); [exact IH|intro H; discriminate H].
Qed.

Lemma dropwhile_app (a b : list A) :
  PyText.dropwhile f (a ++ b)
  = if forallb f a then PyText.dropwhile f b else (PyText.dropwhile f a ++ b)%list.
Proof.
  induction a as [|x a IH]; cbn [app forallb PyText.dropwhile]; [reflexivity|].
  destruct (f x); [exact IH|reflexivity].
Qed.

Lemma dropwhile_split (l : list A) :
  exists p, l = (p ++ PyText.dropwhile f l)%list /\ forallb f p = true.
Proof.
  induction l as [|x l (p & Hp & Fp)]; [exists []; auto|].
  cbn [PyText.dropwhile]. destruct (f x) eqn:E.
  - exists (x :: p). cbn [app forallb]. rewrite E, Fp. split; [congruence|reflexivity].
  - exists []. auto.
Qed.

Lemma dropwhile_head (l : list A) (c : A) (rest : list A) :
  PyText.dropwhile f l = c :: rest -> f c = false.
Proof.
  induction l as [|x l IH]; cbn [PyText.dropwhile]; [discriminate|].
  destruct (f x) eqn:E; [exact IH|]. intro H. injection H as <- _. exact E.
Qed.

Lemma forallb_rev (l : list A) : forallb f (rev l) = forallb f l.
Proof.
  induction l as [|x l IH]; [reflexivity|].
  cbn [rev forallb]. rewrite forallb_app, IH. cbn [forallb].
  rewrite andb_true_r. apply andb_comm.
Qed.

(** The list without its trailing elements that satisfy [f]. *)
Definition rdrop (l : list A) : list A := rev (PyText.dropwhile f (rev l)).

Lemma rdrop_all (l : list A) : forallb f l = true -> rdrop l = [].
Proof.
  intro H. unfold rdrop. rewrite dropwhile_all; [reflexivity|].
  now rewrite forallb_rev.
Qed.

Lemma rdrop_cons (c : A) (l : list A) :
  forallb f (c :: l) = false -> rdrop (c :: l) = c :: rdrop l.
Proof.
  unfold rdrop. cbn [rev forallb]. intro H. rewrite dropwhile_app, forallb_rev.
  destruct (forallb f l) eqn:El.
  - rewrite andb_true_r in H. cbn [PyText.dropwhile]. rewrite H.
    rewrite dropwhile_all by (now rewrite forallb_rev). reflexivity.
  - rewrite rev_app_distr. reflexivity.
Qed.

Lemma rdrop_split (l : list A) :
  exists r, l = (rdrop l ++ r)%list /\ forallb f r = true.
Proof.
  unfold rdrop. destruct (dropwhile_split (rev l)) as (p & Hp & Fp).
  exists (rev p). rewrite forallb_rev. split; [|exact Fp].
  rewrite <- rev_app_distr, <- Hp. symmetry. apply rev_involutive.
Qed.

Lemma rdrop_last (l front : list A) (c : A) :
  rdrop l = (front ++ [c])%list -> f c = false.
Proof.
  unfold rdrop. intro H. apply (f_equal (@rev A)) in H.
  rewrite rev_involutive, rev_app_distr in H. cbn [rev app] in H.
  exact (dropwhile_head _ _ _ H).
Qed.

Lemma rdrop_app_all (t r : list A) : forallb f r = true -> rdrop (t ++ r) = rdrop t.
Proof.
  intro H. unfold rdrop. rewrite rev_app_distr, dropwhile_app, forallb_rev, H.
  reflexivity.
Qed.

Lemma rdrop_keeps (front : list A) (c : A) :
  f c = false -> rdrop (front ++ [c]) = (front ++ [c])%list.
Proof.
  intro H. unfold rdrop. rewrite rev_app_distr. cbn [rev app PyText.dropwhile].
  rewrite H. cbn [rev]. now rewrite rev_involutive.
Qed.

End Dropwhile.

Section Strip.

Lemma rstrip_encode (l : list N) :
  Forall encodable l ->
  PyStr.rstrip (Utf8.encode l) = Utf8.encode (PyText.rstrip l).
Proof.
  change PyText.rstrip with (rdrop PyStr.isspace).
  induction 1 as [|c l Hc Hl IH]; [reflexivity|].
  cbn [Utf8.encode]. rewrite rstrip_encode_cp by exact Hc.
  change (Utf8.encode_cp c ++ Utf8.encode l)%string with (Utf8.encode (c :: l)).
  rewrite lstrip_encode by (now constructor).
  destruct (forallb PyStr.isspace (c :: l)) eqn:E.
  - unfold PyText.lstrip. rewrite dropwhile_all, rdrop_all by exact E. reflexivity.
  - rewrite rdrop_cons by exact E. cbn [Utf8.encode]. rewrite <- IH.
    destruct (Utf8.encode (PyText.lstrip (c :: l))) eqn:En; [|reflexivity].
    apply encode_empty, dropwhile_nil_all in En. congruence.
Qed.

(** The strip of the model, on the bytes of a text, is the strip of Python on
    the text. *)
Lemma strip_encode (text : list N) :
  Forall Utf8.scalar text ->
  PyStr.strip (Utf8.encode text) = Utf8.encode (PyText.strip text).
Proof.
  intro H. apply scalar_encodable in H. unfold PyStr.strip, PyText.strip.
  rewrite lstrip_encode by exact H.
  apply rstrip_encode. unfold PyText.lstrip. now apply dropwhile_Forall.
Qed.

(** The strip of Python is the trimmed text... *)
Lemma strip_trimmed (text : list N) : PyText.trimmed text (PyText.strip text).
Proof.
  unfold PyText.strip, PyText.lstrip.
  change PyText.rstrip with (rdrop PyStr.isspace).
  destruct (dropwhile_split PyStr.isspace text) as (l & Hl & Fl).
  destruct (rdrop_split PyStr.isspace (PyText.dropwhile PyStr.isspace text))
    as (r & Hr & Fr).
  exists l, r. split; [congruence|]. split; [exact Fl|]. split; [exact Fr|]. split.
  - intros c rest Ht. rewrite Ht in Hr. cbn [app] in Hr.
    exact (dropwhile_head _ _ _ _ Hr).
  - intros c front Ht. exact (rdrop_last _ _ _ _ Ht).
Qed.

(** ... and nothing else is. *)
Lemma trimmed_strip (text token : list N) :
  PyText.trimmed text token -> token = PyText.strip text.
Proof.
  intros (l & r & -> & Fl & Fr & Hhead & Hlast).
  unfold PyText.strip, PyText.lstrip.
  change PyText.rstrip with (rdrop PyStr.isspace).
  rewrite dropwhile_app, Fl.
  destruct token as [|c rest].
  - cbn [app]. rewrite dropwhile_all by exact Fr. reflexivity.
  - cbn [app PyText.dropwhile]. rewrite (Hhead c rest eq_refl).
    change (c :: (rest ++ r)%list) with ((c :: rest) ++ r)%list.
    rewrite rdrop_app_all by exact Fr.
    destruct (exists_last (l := c :: rest)) as (front & c' & E); [discriminate|].
    rewrite E. symmetry. apply rdrop_keeps. exact (Hlast c' front E).
Qed.

End Strip.

(** ** The refresh handlers and their selector *)

Section Handlers.

Context {Request Response : Type}.
Variable env : Environment Request Response.

(** C8. The selector maps ["standard"] to the interactive handler, ["basic"]
    and ["client_credentials"] to the same direct-secret handler,
    ["external_process"] to the external-command handler, and raises
    [ValueError] on every other mode; each selected handler runs the
    function of its name. *)
Theorem get_refresh_handler_mapping :
  _get_refresh_handler "standard" = inr refresh_standard
  /\ _get_refresh_handler "basic" = inr refresh_basic
  /\ _get_refresh_handler "client_credentials" = inr refresh_basic
  /\ _get_refresh_handler "external_process" = inr refresh_from_command
  /\ (forall mode : string,
        mode <> "standard" -> mode <> "basic" -> mode <> "client_credentials" ->
        mode <> "external_process" ->
        exists msg, _get_refresh_handler mode = inl (ValueError msg))
  /\ (forall w, call_refresh_handler env refresh_standard w
                = _refresh_credentials_standard env
                    (snd (emit (Refresh refresh_standard) w)))
  /\ (forall w, call_refresh_handler env refresh_basic w
                = _refresh_credentials_basic env
                    (snd (emit (Refresh refresh_basic) w)))
  /\ (forall w, call_refresh_handler env refresh_from_command w
                = _refresh_credentials_from_command env
                    (snd (emit (Refresh refresh_from_command) w))).
Proof.
  repeat (split; [reflexivity|]).
  split; [|repeat split].
  intros mode H1 H2 H3 H4. unfold _get_refresh_handler.
  apply String.eqb_neq in H1, H2, H3, H4.
  rewrite H1, H2, H3, H4. cbn. eexists. reflexivity.
Qed.

(** C4 (the code at the failing input). With no PublicClientConfig the
    standard handler raises [AttributeError] at its first statement, before
    the test that would raise [ValueError]; the world is left as it was. *)
Theorem refresh_standard_without_public_client_config (w : World) :
  _public_client_config (client w) = None ->
  _refresh_credentials_standard env w
  = (Raised (AttributeError
       "'NoneType' object has no attribute 'authorization_metadata_key'"), w).
Proof.
  intro H. unfold _refresh_credentials_standard, bind, get_self.
  rewrite H. reflexivity.
Qed.

(** With a PublicClientConfig and no OAuth2Metadata, the standard handler
    raises the [ValueError] of the guard, and the world is left as it was. *)
Lemma refresh_standard_without_oauth2_metadata (w : World)
    (pcc : PublicClientAuthConfigResponse) :
  _public_client_config (client w) = Some pcc ->
  _oauth2_metadata (client w) = None ->
  _refresh_credentials_standard env w = (Raised (ValueError no_admin_response), w).
Proof.
  intros H1 H2. unfold _refresh_credentials_standard, bind, get_self.
  rewrite H1, H2. reflexivity.
Qed.

(** The direct-secret handler tests before it reads: either absence raises
    the [ValueError] of the guard. *)
Lemma refresh_basic_without_admin_response (w : World) :
  _public_client_config (client w) = None \/ _oauth2_metadata (client w) = None ->
  _refresh_credentials_basic env w = (Raised (ValueError no_admin_response), w).
Proof.
  intros [H|H]; unfold _refresh_credentials_basic, bind, get_self; rewrite H.
  - destruct (_oauth2_metadata (client w)); reflexivity.
  - reflexivity.
Qed.

(** The header of HTTP basic authentication. *)
Lemma get_basic_authorization_header_eq (cid sec : string) :
  get_basic_authorization_header (Some cid) sec
  = "Basic " ++ Base64.b64encode (cid ++ ":" ++ sec).
Proof. reflexivity. Qed.

Definition basic_scope (pcc : PublicClientAuthConfigResponse) : string :=
  PyStr.join "," (match SCOPES env with [] => scopes pcc | l => l end).

Definition basic_headers (secret : string) : list (string * string) :=
  [("Authorization", get_basic_authorization_header (CLIENT_ID env) secret);
   ("Cache-Control", "no-cache");
   ("Accept", "application/json");
   ("Content-Type", "application/x-www-form-urlencoded")].

(** C9. For ["cid"] and ["sec"] the header is ["Basic "] followed by the
    base64 encoding of ["cid:sec"]; and when the admin metadata are present,
    a secret is found and the token endpoint answers with a status other
    than 200, the direct-secret handler posts once to the token endpoint with
    the basic header, raises [FlyteAuthenticationException] and leaves the
    client as it was. *)
Theorem refresh_basic_non_200 (w : World) (oam : OAuth2MetadataResponse)
    (pcc : PublicClientAuthConfigResponse) (secret : string) :
  _oauth2_metadata (client w) = Some oam ->
  _public_client_config (client w) = Some pcc ->
  get_secret env = inr secret ->
  (forall url data headers, status_code (requests_post env url data headers) <> 200%Z) ->
  get_basic_authorization_header (Some "cid") "sec"
    = "Basic " ++ Base64.b64encode "cid:sec"
  /\ Base64.b64encode "cid:sec" = "Y2lkOnNlYw=="
  /\ exists w',
      _refresh_credentials_basic env w
        = (Raised (FlyteAuthenticationException "Non-200 received from IDP"), w')
      /\ client w' = client w
      /\ trace w' = (trace w ++
           [Post (token_endpoint oam)
                 [("grant_type", "client_credentials"); ("scope", basic_scope pcc)]
                 (basic_headers secret)])%list.
Proof.
  intros Ho Hp Hs Hst. split; [reflexivity|]. split; [reflexivity|].
  unfold _refresh_credentials_basic, bind, get_self. rewrite Ho, Hp, Hs.
  cbn [lift ret]. unfold get_token, bind, emit.
  match goal with
  | |- context [requests_post env ?u ?d ?h] =>
      specialize (Hst u d h); apply Z.eqb_neq in Hst; rewrite Hst
  end.
  cbn. eexists. repeat split.
Qed.

(** A run of the command that exits with status 0: the handler stores the
    strip of the output, as the model computes it on the bytes. *)
Lemma refresh_from_command_zero_exit (w : World) (p : CompletedProcess) :
  subprocess_run env (COMMAND env) = inr p ->
  returncode p = 0%Z ->
  _refresh_credentials_from_command env w
  = (Ok tt,
     {| client := set_access_token (client w) (PyStr.strip (stdout p))
                    (Some "authorization");
        auth_client := auth_client w;
        rpc_calls := rpc_calls w;
        trace := (trace w ++ [Run (COMMAND env)])%list |}).
Proof.
  intros Hrun Hrc.
  unfold _refresh_credentials_from_command, bind, try_except,
    subprocess_run_check, bind, emit.
  rewrite Hrun. cbn [lift ret]. rewrite Hrc. reflexivity.
Qed.

(** C10. When the command exits with status 0 and its standard output is the
    text [text] (any code points that a [str] can hold, white space of Python
    included), the external-command handler stores under the key
    ["authorization"] the token [text.strip()]: the text without its leading
    and trailing white space, and the only such one. This holds whatever the
    PublicClientConfig and the OAuth2Metadata of the client are (present or
    not, with any [authorization_metadata_key]); nothing else of the client
    changes. *)
Theorem refresh_from_command_stores_stdout (w : World) (p : CompletedProcess)
    (text : list N) :
  subprocess_run env (COMMAND env) = inr p ->
  returncode p = 0%Z ->
  Forall Utf8.scalar text ->
  stdout p = Utf8.encode text ->
  exists w',
    _refresh_credentials_from_command env w = (Ok tt, w')
    /\ _metadata (client w')
       = Some [(Some "authorization", "Bearer " ++ Utf8.encode (PyText.strip text))]
    /\ PyText.trimmed text (PyText.strip text)
    /\ (forall token, PyText.trimmed text token -> token = PyText.strip text)
    /\ _public_client_config (client w') = _public_client_config (client w)
    /\ _oauth2_metadata (client w') = _oauth2_metadata (client w)
    /\ trace w' = (trace w ++ [Run (COMMAND env)])%list.
Proof.
  intros Hrun Hrc Hs Ht.
  eexists. split; [exact (refresh_from_command_zero_exit w p Hrun Hrc)|].
  cbn [client trace]. rewrite Ht, (strip_encode text Hs).
  split; [reflexivity|]. split; [apply strip_trimmed|].
  split; [apply trimmed_strip|]. repeat split.
Qed.

(** A non-zero exit status becomes a [FlyteAuthenticationException], and the
    client is left as it was. *)
Lemma refresh_from_command_failure (w : World) (p : CompletedProcess) :
  subprocess_run env (COMMAND env) = inr p ->
  returncode p <> 0%Z ->
  exists w',
    _refresh_credentials_from_command env w
      = (Raised (FlyteAuthenticationException
           ("Problems refreshing token with command: "
              ++ str_CalledProcessError env (COMMAND env) (returncode p))), w')
    /\ client w' = client w.
Proof.
  intros Hrun Hrc. apply Z.eqb_neq in Hrc.
  unfold _refresh_credentials_from_command, bind, try_except,
    subprocess_run_check, bind, emit.
  rewrite Hrun. cbn [lift ret]. rewrite Hrc. cbn.
  eexists. repeat split.
Qed.

End Handlers.

(** ** What a computation leaves in the trace *)

(** The part of the world that the refresh handlers do not touch: the number
    of stub invocations and the invocations, refreshes and sleeps of the
    trace. *)
Definition footprint (w : World) : nat * nat * list RefreshHandler * list Z :=
  (rpc_calls w, invocations (trace w), refreshes (trace w), sleeps (trace w)).

(** A computation that invokes no stub, calls no refresh handler and does not
    sleep. *)
Definition quiet {A} (m : M A) : Prop :=
  forall w r w', m w = (r, w') -> footprint w' = footprint w.

Lemma invocations_app (t u : list Event) :
  invocations (t ++ u) = invocations t + invocations u.
Proof. unfold invocations. now rewrite filter_app, length_app. Qed.

Lemma refreshes_app (t u : list Event) :
  refreshes (t ++ u) = (refreshes t ++ refreshes u)%list.
Proof. apply flat_map_app. Qed.

Lemma sleeps_app (t u : list Event) : sleeps (t ++ u) = (sleeps t ++ sleeps u)%list.
Proof. apply flat_map_app. Qed.

Create HintDb quiet.

Section Quiet.

Context {A B : Type}.

Lemma quiet_ret (a : A) : quiet (ret a).
Proof. intros w r w' H. now inversion H. Qed.

Lemma quiet_raise (e : Exn) : quiet (@raise A e).
Proof. intros w r w' H. now inversion H. Qed.

Lemma quiet_lift (x : Exn + A) : quiet (lift x).
Proof. destruct x; [apply quiet_raise | apply quiet_ret]. Qed.

Lemma quiet_bind (m : M A) (k : A -> M B) :
  quiet m -> (forall a, quiet (k a)) -> quiet (bind m k).
Proof.
  intros Hm Hk w r w' H. unfold bind in H.
  destruct (m w) as [[a|e] w1] eqn:E.
  - rewrite (Hk a _ _ _ H). exact (Hm _ _ _ E).
  - inversion H; subst. exact (Hm _ _ _ E).
Qed.

Lemma quiet_try_except (m : M A) (h : Exn -> option (M A)) :
  quiet m -> (forall e k, h e = Some k -> quiet k) -> quiet (try_except m h).
Proof.
  intros Hm Hh w r w' H. unfold try_except in H.
  destruct (m w) as [[a|e] w1] eqn:E.
  - inversion H; subst. exact (Hm _ _ _ E).
  - destruct (h e) as [k|] eqn:Eh.
    + rewrite (Hh e k Eh _ _ _ H). exact (Hm _ _ _ E).
    + inversion H; subst. exact (Hm _ _ _ E).
Qed.

End Quiet.

Lemma quiet_get_self : quiet get_self.
Proof. intros w r w' H. now inversion H. Qed.

Lemma quiet_put_self (c : RawSynchronousFlyteClient) : quiet (put_self c).
Proof. intros w r w' H. now inversion H. Qed.

Lemma quiet_get_auth_client : quiet get_auth_client.
Proof. intros w r w' H. now inversion H. Qed.

Lemma quiet_put_auth_client (a : AuthorizationClient) : quiet (put_auth_client a).
Proof. intros w r w' H. now inversion H. Qed.

Lemma quiet_emit_post (u : string) (d h : list (string * string)) :
  quiet (emit (Post u d h)).
Proof.
  intros w r w' H. inversion H; subst. unfold footprint; cbn [rpc_calls trace].
  rewrite invocations_app, refreshes_app, sleeps_app. cbn.
  now rewrite Nat.add_0_r, !app_nil_r.
Qed.

Lemma quiet_emit_run (c : list string) : quiet (emit (Run c)).
Proof.
  intros w r w' H. inversion H; subst. unfold footprint; cbn [rpc_calls trace].
  rewrite invocations_app, refreshes_app, sleeps_app. cbn.
  now rewrite Nat.add_0_r, !app_nil_r.
Qed.

#[local] Hint Resolve quiet_get_self quiet_put_self quiet_get_auth_client
  quiet_put_auth_client quiet_emit_post quiet_emit_run : quiet.
#[local] Hint Resolve quiet_ret quiet_raise quiet_lift : quiet.

(** One step of the proof that a handler is quiet: follow the structure of the
    computation. *)
Ltac quiet_step :=
  match goal with
  | |- quiet (bind _ _) => apply quiet_bind; [|intro]
  | |- quiet (try_except _ _) => apply quiet_try_except; [|intros ? ? ?]
  | |- quiet (match ?x with _ => _ end) => destruct x
  | |- quiet _ => solve [auto with quiet]
  | H : match ?e with _ => _ end = Some _ |- _ => destruct e; try discriminate H
  | H : Some _ = Some _ |- _ => injection H as <-
  end.

Section QuietHandlers.

Context {Request Response : Type}.
Variable env : Environment Request Response.

Lemma quiet_self_set_access_token (t : string) (k : option string) :
  quiet (self_set_access_token t k).
Proof. unfold self_set_access_token. repeat quiet_step. Qed.

Lemma quiet_credentials_access_token (a : AuthorizationClient) :
  quiet (credentials_access_token a).
Proof. unfold credentials_access_token. repeat quiet_step. Qed.

Hint Resolve quiet_self_set_access_token quiet_credentials_access_token : quiet.

Lemma quiet_refresh_credentials_standard : quiet (_refresh_credentials_standard env).
Proof. unfold _refresh_credentials_standard. cbv zeta. repeat quiet_step. Qed.

Lemma quiet_get_token (u h : string) (s : option string) : quiet (get_token env u h s).
Proof. unfold get_token. cbv zeta. repeat quiet_step. Qed.

Hint Resolve quiet_get_token : quiet.

Lemma quiet_refresh_credentials_basic : quiet (_refresh_credentials_basic env).
Proof. unfold _refresh_credentials_basic. cbv zeta. repeat quiet_step. Qed.

Lemma quiet_refresh_credentials_from_command :
  quiet (_refresh_credentials_from_command env).
Proof.
  unfold _refresh_credentials_from_command, subprocess_run_check. cbv zeta.
  repeat quiet_step.
Qed.

(** A call of a refresh handler adds one refresh to the trace, and neither a
    stub invocation nor a sleep. *)
Lemma call_refresh_handler_footprint (h : RefreshHandler) (w : World)
    (r : Res unit) (w' : World) :
  call_refresh_handler env h w = (r, w') ->
  rpc_calls w' = rpc_calls w
  /\ invocations (trace w') = invocations (trace w)
  /\ refreshes (trace w') = (refreshes (trace w) ++ [h])%list
  /\ sleeps (trace w') = sleeps (trace w).
Proof.
  unfold call_refresh_handler, bind, emit. intro H.
  assert (Q : quiet (match h with
                     | refresh_standard => _refresh_credentials_standard env
                     | refresh_basic => _refresh_credentials_basic env
                     | refresh_from_command => _refresh_credentials_from_command env
                     | refresh_noop => _refresh_credentials_noop
                     end)).
  { destruct h; auto using quiet_refresh_credentials_standard,
      quiet_refresh_credentials_basic, quiet_refresh_credentials_from_command.
    apply quiet_ret. }
  apply Q in H. unfold footprint in H; cbn [rpc_calls trace] in H.
  rewrite invocations_app, refreshes_app, sleeps_app in H. cbn in H.
  rewrite Nat.add_0_r, app_nil_r in H.
  injection H as H1 H2 H3 H4. auto.
Qed.

End QuietHandlers.

(** ** The retry wrapper *)

Section Wrapper.

Context {Request Response : Type}.
Variable env : Environment Request Response.

Abbreviation handler := (_handle_rpc_error env).
Abbreviation body := (handler_body env).

(** *** The wrapped functions *)

Lemma decorated_eq (m : Method) (req : Request) (w : World) :
  decorated env m req w
  = match stub env m (rpc_calls w) (_metadata (client w)) req with
    | inl e => (Raised (ERpcError e), invoked m w)
    | inr r => (Ok (if create_decorated m then VNone else VResponse r), invoked m w)
    end.
Proof.
  unfold decorated, _handle_invalid_create_request, try_except, bind, stub_invoke.
  fold (invoked m w).
  destruct (create_decorated m);
    destruct (stub env m (rpc_calls w) (_metadata (client w)) req); reflexivity.
Qed.

Lemma decorated_world (m : Method) (req : Request) (w w' : World) (r : Res (value Response)) :
  decorated env m req w = (r, w') -> w' = invoked m w.
Proof.
  rewrite decorated_eq.
  destruct (stub env m (rpc_calls w) (_metadata (client w)) req);
    intro H; now inversion H.
Qed.

Lemma retry_not_create (m : Method) : retry_of m = true -> create_decorated m = false.
Proof. destruct m; simpl; congruence. Qed.

(** *** One iteration of the loop *)

Section Body.

Variables (retry : bool) (fn : Request -> M (value Response)) (req : Request) (i : nat).

Lemma body_return (w w' : World) (v : value Response) :
  fn req w = (Ok v, w') -> body retry fn req i w = (Ok (Return v), w').
Proof. intro H. unfold handler_body, try_except, bind. now rewrite H. Qed.

Lemma body_unauthenticated (w w1 : World) (e : RpcError) :
  fn req w = (Raised (ERpcError e), w1) ->
  code e = UNAUTHENTICATED ->
  body retry fn req i w
  = if (i =? max_retries - 1)%nat
    then (Raised (FlyteAuthenticationException (rpc_str e)), w1)
    else match _get_refresh_handler (AUTH_MODE env) with
         | inl ex => (Raised ex, w1)
         | inr h => match call_refresh_handler env h w1 with
                    | (Ok _, w2) => (Ok Continue, w2)
                    | (Raised ex, w2) => (Raised ex, w2)
                    end
         end.
Proof.
  intros H Hc. unfold handler_body, try_except, bind. rewrite H, Hc.
  cbn [StatusCode_eqb]. destruct (i =? max_retries - 1)%nat; [reflexivity|].
  destruct (_get_refresh_handler (AUTH_MODE env)) as [ex|h]; [reflexivity|].
  cbn [lift ret]. destruct (call_refresh_handler env h w1) as [[[]|ex] w2]; reflexivity.
Qed.

Lemma body_already_exists (w w1 : World) (e : RpcError) :
  fn req w = (Raised (ERpcError e), w1) ->
  code e = ALREADY_EXISTS ->
  body retry fn req i w = (Raised (FlyteEntityAlreadyExistsException e), w1).
Proof.
  intros H Hc. unfold handler_body, try_except, bind. rewrite H, Hc. reflexivity.
Qed.

Lemma body_not_found (w w1 : World) (e : RpcError) :
  fn req w = (Raised (ERpcError e), w1) ->
  code e = NOT_FOUND ->
  body retry fn req i w = (Raised (FlyteEntityNotExistException e), w1).
Proof.
  intros H Hc. unfold handler_body, try_except, bind. rewrite H, Hc. reflexivity.
Qed.

Lemma body_other (w w1 : World) (e : RpcError) :
  fn req w = (Raised (ERpcError e), w1) ->
  other_code (code e) = true ->
  body retry fn req i w
  = if orb (negb retry) (i =? max_retries - 1)%nat
    then (Raised (ERpcError e), w1)
    else (Ok Continue, slept (Z.min (200 * 2 ^ Z.of_nat i) 1000) w1).
Proof.
  intros H Hc. unfold handler_body, try_except, bind. rewrite H.
  unfold other_code in Hc.
  destruct (StatusCode_eqb (code e) UNAUTHENTICATED); [discriminate Hc|].
  destruct (StatusCode_eqb (code e) ALREADY_EXISTS); [discriminate Hc|].
  destruct (StatusCode_eqb (code e) NOT_FOUND); [discriminate Hc|].
  destruct (orb (negb retry) (i =? max_retries - 1)%nat); reflexivity.
Qed.

(** An exception of the wrapped function that is not an [RpcError] goes
    through. *)
Lemma body_not_rpc_error (w w1 : World) (ex : Exn) :
  fn req w = (Raised ex, w1) ->
  (forall e, ex <> ERpcError e) ->
  body retry fn req i w = (Raised ex, w1).
Proof.
  intros H Hn. unfold handler_body, try_except, bind. rewrite H.
  destruct ex; try reflexivity. now elim (Hn e).
Qed.

End Body.

(** *** The loop *)

Lemma for_range_cons (b : nat -> M (Flow Response)) (i : nat) (rest : list nat) (w : World) :
  for_range b (i :: rest) w
  = match b i w with
    | (Ok (Return v), w') => (Ok v, w')
    | (Ok Continue, w') => for_range b rest w'
    | (Raised e, w') => (Raised e, w')
    end.
Proof.
  cbn [for_range]. unfold bind. destruct (b i w) as [[[v|]|e] w']; reflexivity.
Qed.

(** The footprint of [n] rounds of failure and refresh. *)
Lemma unauthenticated_rounds_footprint (m : Method) (req : Request) (n : nat) :
  forall w w',
    unauthenticated_rounds env m req n w = Some w' ->
    invocations (trace w') = invocations (trace w) + n
    /\ sleeps (trace w') = sleeps (trace w)
    /\ length (refreshes (trace w')) = length (refreshes (trace w)) + n
    /\ forall h, _get_refresh_handler (AUTH_MODE env) = inr h ->
                 refreshes (trace w') = (refreshes (trace w) ++ repeat h n)%list.
Proof.
  induction n as [|n IH]; intros w w' H; cbn [unauthenticated_rounds] in H.
  - injection H as <-. rewrite !Nat.add_0_r. cbn [repeat].
    repeat split. intros. now rewrite app_nil_r.
  - destruct (decorated env m req w) as [[v|[e| | | | | | | | | | |]] w1] eqn:E;
      try discriminate H.
    destruct (StatusCode_eqb (code e) UNAUTHENTICATED); [|discriminate H].
    destruct (_get_refresh_handler (AUTH_MODE env)) as [ex|h] eqn:Eh; [discriminate H|].
    destruct (call_refresh_handler env h w1) as [[u|ex] w2] eqn:Er; [|discriminate H].
    apply decorated_world in E. subst w1.
    apply call_refresh_handler_footprint in Er as (_ & Ei & Erf & Es).
    apply IH in H as (Hi & Hs & Hl & Hr).
    cbn [invoked trace] in Ei, Erf, Es.
    rewrite invocations_app in Ei. rewrite refreshes_app in Erf. rewrite sleeps_app in Es.
    cbn in Ei, Erf, Es. rewrite app_nil_r in Erf, Es.
    rewrite Hi, Hs, Hl, Ei, Es, Erf, length_app. cbn [length].
    repeat split; try lia.
    intros h' Hh'. injection Hh' as <-. rewrite (Hr h eq_refl), Erf.
    rewrite <- app_assoc. reflexivity.
Qed.

(** The loop goes through [n] rounds of failure and refresh as long as the
    last index is not reached. *)
Lemma for_range_rounds (retry : bool) (m : Method) (req : Request) (n : nat) :
  forall i k w w',
    unauthenticated_rounds env m req n w = Some w' ->
    i + n <= max_retries - 1 ->
    for_range (body retry (decorated env m) req) (seq i (n + k)) w
    = for_range (body retry (decorated env m) req) (seq (i + n) k) w'.
Proof.
  induction n as [|n IH]; intros i k w w' H Hi; cbn [unauthenticated_rounds] in H.
  - injection H as <-. now rewrite Nat.add_0_r.
  - destruct (decorated env m req w) as [[v|[e| | | | | | | | | | |]] w1] eqn:E;
      try discriminate H.
    destruct (StatusCode_eqb (code e) UNAUTHENTICATED) eqn:Ec; [|discriminate H].
    assert (Hc : code e = UNAUTHENTICATED) by (destruct (code e); now try discriminate Ec).
    cbn [Nat.add seq]. rewrite for_range_cons.
    rewrite (body_unauthenticated retry _ req i w w1 e E Hc).
    replace (i =? max_retries - 1)%nat with false
      by (symmetry; apply Nat.eqb_neq; lia).
    destruct (_get_refresh_handler (AUTH_MODE env)) as [ex|h]; [discriminate H|].
    destruct (call_refresh_handler env h w1) as [[u|ex] w2]; [|discriminate H].
    rewrite (IH (S i) k w2 w' H) by lia.
    now rewrite Nat.add_succ_r.
Qed.

(** *** The behaviour of the wrapper *)

(** C1. Let the underlying invocation raise UNAUTHENTICATED on each of the
    first [n] attempts, each failure being followed by a refresh that
    returns. If [n < max_retries - 1] and the next attempt returns [v], the
    wrapper returns [v]; if [n = max_retries - 1] and the next attempt raises
    UNAUTHENTICATED again, the wrapper raises [FlyteAuthenticationException]
    with the text of that failure. In both cases the handler selected for
    the configured mode was called exactly [n] times, nothing slept, and the
    stub was invoked [n + 1] times. *)
Theorem handle_rpc_error_unauthenticated (retry : bool) (m : Method) (req : Request)
    (n : nat) (w w' : World) :
  unauthenticated_rounds env m req n w = Some w' ->
  (forall v w'',
      n < max_retries - 1 ->
      decorated env m req w' = (Ok v, w'') ->
      handler retry (decorated env m) req w = (Ok v, w'')
      /\ length (refreshes (trace w'')) = length (refreshes (trace w)) + n
      /\ (forall h, _get_refresh_handler (AUTH_MODE env) = inr h ->
                    refreshes (trace w'') = (refreshes (trace w) ++ repeat h n)%list)
      /\ sleeps (trace w'') = sleeps (trace w)
      /\ invocations (trace w'') = invocations (trace w) + n + 1)
  /\ (forall e w'',
        n = max_retries - 1 ->
        decorated env m req w' = (Raised (ERpcError e), w'') ->
        code e = UNAUTHENTICATED ->
        handler retry (decorated env m) req w
          = (Raised (FlyteAuthenticationException (rpc_str e)), w'')
        /\ length (refreshes (trace w'')) = length (refreshes (trace w)) + (max_retries - 1)
        /\ (forall h, _get_refresh_handler (AUTH_MODE env) = inr h ->
                      refreshes (trace w'')
                      = (refreshes (trace w) ++ repeat h (max_retries - 1))%list)
        /\ sleeps (trace w'') = sleeps (trace w)
        /\ invocations (trace w'') = invocations (trace w) + max_retries).
Proof.
  intro H.
  pose proof (unauthenticated_rounds_footprint m req n w w' H) as (Hi & Hs & Hl & Hr).
  assert (Last : forall r w'', decorated env m req w' = (r, w'') ->
            invocations (trace w'') = invocations (trace w') + 1
            /\ sleeps (trace w'') = sleeps (trace w')
            /\ refreshes (trace w'') = refreshes (trace w')).
  { intros r w'' E. apply decorated_world in E. subst w''. cbn [invoked trace].
    rewrite invocations_app, sleeps_app, refreshes_app. cbn.
    now rewrite !app_nil_r. }
  split.
  - intros v w'' Hn E. destruct (Last _ _ E) as (Li & Ls & Lr).
    split.
    + unfold _handle_rpc_error.
      replace max_retries with (n + (max_retries - n)) at 1 by lia.
      rewrite (for_range_rounds retry m req n 0 (max_retries - n) w w' H) by lia.
      destruct (max_retries - n) as [|k] eqn:Ek; [lia|].
      cbn [seq]. rewrite for_range_cons.
      now rewrite (body_return retry _ req (0 + n) w' w'' v E).
    + rewrite Li, Ls, Lr, Hi, Hs, Hl. repeat split. intros h Hh. now apply Hr.
  - intros e w'' Hn E Hc. destruct (Last _ _ E) as (Li & Ls & Lr). subst n.
    split.
    + unfold _handle_rpc_error.
      change max_retries with (max_retries - 1 + 1) at 1.
      rewrite (for_range_rounds retry m req (max_retries - 1) 0 1 w w' H) by lia.
      cbn [seq]. rewrite for_range_cons.
      rewrite (body_unauthenticated retry _ req _ w' w'' e E Hc).
      reflexivity.
    + rewrite Li, Ls, Lr, Hi, Hs, Hl. repeat split.
      * intros h Hh. now apply Hr.
      * unfold max_retries. lia.
Qed.

(** C2. Whatever [retry] is, when the stub fails with ALREADY_EXISTS the
    wrapper raises [FlyteEntityAlreadyExistsException], and when it fails
    with NOT_FOUND the wrapper raises [FlyteEntityNotExistException]; the
    only event is the one invocation of the stub, and the client is left as
    it was. *)
Theorem handle_rpc_error_conflict (retry : bool) (m : Method) (req : Request)
    (w : World) (e : RpcError) :
  stub env m (rpc_calls w) (_metadata (client w)) req = inl e ->
  exists w',
    trace w' = (trace w ++ [Invoke m (_metadata (client w))])%list
    /\ client w' = client w
    /\ rpc_calls w' = S (rpc_calls w)
    /\ (code e = ALREADY_EXISTS ->
        handler retry (decorated env m) req w
        = (Raised (FlyteEntityAlreadyExistsException e), w'))
    /\ (code e = NOT_FOUND ->
        handler retry (decorated env m) req w
        = (Raised (FlyteEntityNotExistException e), w')).
Proof.
  intro H. exists (invoked m w).
  assert (E : decorated env m req w = (Raised (ERpcError e), invoked m w))
    by (rewrite decorated_eq, H; reflexivity).
  repeat split; intro Hc; unfold _handle_rpc_error; cbn [max_retries seq];
    rewrite for_range_cons.
  - now rewrite (body_already_exists retry _ req 0 w _ e E Hc).
  - now rewrite (body_not_found retry _ req 0 w _ e E Hc).
Qed.

(** C3. Let the stub fail with a code other than UNAUTHENTICATED,
    ALREADY_EXISTS and NOT_FOUND. At index [i] the iteration re-raises the
    failure unchanged when [retry] is false or [i = max_retries - 1], and
    otherwise sleeps [min(200 * 2^i, 1000)] milliseconds and goes on; with
    [retry = False] the wrapper raises the failure after the first attempt
    with no sleep; and for a method declared with [retry=True], two such
    failures followed by a success make the wrapper sleep 200 ms, then
    400 ms, and return the response. *)
Theorem handle_rpc_error_other (m : Method) (req : Request) (w : World)
    (e : RpcError) :
  stub env m (rpc_calls w) (_metadata (client w)) req = inl e ->
  other_code (code e) = true ->
  (forall retry i,
      body retry (decorated env m) req i w
      = if orb (negb retry) (i =? max_retries - 1)%nat
        then (Raised (ERpcError e), invoked m w)
        else (Ok Continue, slept (Z.min (200 * 2 ^ Z.of_nat i) 1000) (invoked m w)))
  /\ (handler false (decorated env m) req w = (Raised (ERpcError e), invoked m w)
      /\ sleeps (trace (invoked m w)) = sleeps (trace w)
      /\ invocations (trace (invoked m w)) = invocations (trace w) + 1)
  /\ (forall e1 r,
        retry_of m = true ->
        stub env m (S (rpc_calls w)) (_metadata (client w)) req = inl e1 ->
        other_code (code e1) = true ->
        stub env m (S (S (rpc_calls w))) (_metadata (client w)) req = inr r ->
        exists w',
          call env m req w = (Ok (VResponse r), w')
          /\ trace w' = (trace w ++
                [Invoke m (_metadata (client w)); Sleep 200;
                 Invoke m (_metadata (client w)); Sleep 400;
                 Invoke m (_metadata (client w))])%list
          /\ sleeps (trace w') = (sleeps (trace w) ++ [200; 400]%Z)%list
          /\ client w' = client w).
Proof.
  intros H Hc.
  assert (E : decorated env m req w = (Raised (ERpcError e), invoked m w))
    by (rewrite decorated_eq, H; reflexivity).
  split; [|split].
  - intros retry i. exact (body_other retry _ req i w _ e E Hc).
  - split; [|split].
    + unfold _handle_rpc_error. cbn [max_retries seq]. rewrite for_range_cons.
      now rewrite (body_other false _ req 0 w _ e E Hc).
    + cbn [invoked trace]. rewrite sleeps_app. cbn. now rewrite app_nil_r.
    + cbn [invoked trace]. rewrite invocations_app. reflexivity.
  - intros e1 r Hr H1 Hc1 H2.
    pose proof (retry_not_create m Hr) as Hnc.
    set (w1 := slept 200 (invoked m w)).
    assert (E1 : decorated env m req w1 = (Raised (ERpcError e1), invoked m w1))
      by (rewrite decorated_eq; cbn [w1 slept invoked rpc_calls client];
          rewrite H1; reflexivity).
    set (w2 := slept 400 (invoked m w1)).
    assert (E2 : decorated env m req w2 = (Ok (VResponse r), invoked m w2))
      by (rewrite decorated_eq; cbn [w2 w1 slept invoked rpc_calls client];
          rewrite H2, Hnc; reflexivity).
    exists (invoked m w2). split; [|split; [|split]].
    + unfold call, _handle_rpc_error. rewrite Hr. cbn [max_retries seq].
      rewrite for_range_cons, (body_other true _ req 0 w _ e E Hc).
      cbn [negb orb Nat.eqb max_retries Nat.sub].
      change (slept (Z.min (200 * 2 ^ Z.of_nat 0) 1000) (invoked m w)) with w1.
      rewrite for_range_cons, (body_other true _ req 1 w1 _ e1 E1 Hc1).
      cbn [negb orb Nat.eqb max_retries Nat.sub].
      change (slept (Z.min (200 * 2 ^ Z.of_nat 1) 1000) (invoked m w1)) with w2.
      rewrite for_range_cons, (body_return true _ req 2 w2 _ _ E2).
      reflexivity.
    + cbn [w2 w1 slept invoked trace client]. now rewrite <- !app_assoc.
    + cbn [w2 w1 slept invoked trace client].
      rewrite !sleeps_app. cbn. now rewrite !app_nil_r, <- !app_assoc.
    + reflexivity.
Qed.

(** Three failures of the last branch in a row: the third one is re-raised,
    after the sleeps of 200 ms and 400 ms. *)
Lemma three_transient_failures_reraise (m : Method) (req : Request) (w : World)
    (e0 e1 e2 : RpcError) :
  stub env m (rpc_calls w) (_metadata (client w)) req = inl e0 ->
  stub env m (S (rpc_calls w)) (_metadata (client w)) req = inl e1 ->
  stub env m (S (S (rpc_calls w))) (_metadata (client w)) req = inl e2 ->
  other_code (code e0) = true -> other_code (code e1) = true ->
  other_code (code e2) = true ->
  handler true (decorated env m) req w
  = (Raised (ERpcError e2),
     invoked m (slept 400 (invoked m (slept 200 (invoked m w))))).
Proof.
  intros H0 H1 H2 C0 C1 C2.
  assert (E0 : decorated env m req w = (Raised (ERpcError e0), invoked m w))
    by (rewrite decorated_eq, H0; reflexivity).
  set (w1 := slept 200 (invoked m w)).
  assert (E1 : decorated env m req w1 = (Raised (ERpcError e1), invoked m w1))
    by (rewrite decorated_eq; cbn [w1 slept invoked rpc_calls client];
        rewrite H1; reflexivity).
  set (w2 := slept 400 (invoked m w1)).
  assert (E2 : decorated env m req w2 = (Raised (ERpcError e2), invoked m w2))
    by (rewrite decorated_eq; cbn [w2 w1 slept invoked rpc_calls client];
        rewrite H2; reflexivity).
  unfold _handle_rpc_error. cbn [max_retries seq].
  rewrite for_range_cons, (body_other true _ req 0 w _ e0 E0 C0).
  cbn [negb orb Nat.eqb max_retries Nat.sub].
  change (slept (Z.min (200 * 2 ^ Z.of_nat 0) 1000) (invoked m w)) with w1.
  rewrite for_range_cons, (body_other true _ req 1 w1 _ e1 E1 C1).
  cbn [negb orb Nat.eqb max_retries Nat.sub].
  change (slept (Z.min (200 * 2 ^ Z.of_nat 1) 1000) (invoked m w1)) with w2.
  rewrite for_range_cons, (body_other true _ req 2 w2 _ e2 E2 C2).
  reflexivity.
Qed.

(** The delay is never more than [max_wait_time]. *)
Lemma wait_time_bound (i : nat) :
  (0 < Z.min (200 * 2 ^ Z.of_nat i) max_wait_time <= max_wait_time)%Z.
Proof.
  unfold max_wait_time. split; [|apply Z.le_min_r].
  apply Z.min_glb_lt; [|lia].
  assert (0 < 2 ^ Z.of_nat i)%Z by (apply Z.pow_pos_nonneg; lia). lia.
Qed.

(** A method without [@_handle_invalid_create_request] returns the response
    of the stub. *)
Lemma call_returns_response (m : Method) (req : Request) (w : World) (r : Response) :
  create_decorated m = false ->
  stub env m (rpc_calls w) (_metadata (client w)) req = inr r ->
  call env m req w = (Ok (VResponse r), invoked m w).
Proof.
  intros Hc H. unfold call, _handle_rpc_error. cbn [max_retries seq].
  rewrite for_range_cons.
  rewrite (body_return (retry_of m) _ req 0 w (invoked m w) (VResponse r)).
  - reflexivity.
  - rewrite decorated_eq, H, Hc. reflexivity.
Qed.

(** C5 (the code at the failing input). A method under
    [@_handle_invalid_create_request] ([create_task], [create_workflow],
    [create_launch_plan]) returns [None] when the stub succeeds: the inner
    handler calls the method and drops its result. *)
Theorem create_request_result_dropped (m : Method) (req : Request) (w : World)
    (r : Response) :
  create_decorated m = true ->
  stub env m (rpc_calls w) (_metadata (client w)) req = inr r ->
  call env m req w = (Ok VNone, invoked m w)
  /\ call env m req w <> (Ok (VResponse r), invoked m w).
Proof.
  intros Hc H.
  assert (E : call env m req w = (Ok VNone, invoked m w)).
  { unfold call, _handle_rpc_error. cbn [max_retries seq]. rewrite for_range_cons.
    rewrite (body_return (retry_of m) _ req 0 w (invoked m w) VNone).
    - reflexivity.
    - rewrite decorated_eq, H, Hc. reflexivity. }
  split; [exact E|]. rewrite E. intro F. discriminate F.
Qed.

End Wrapper.

(** ** The theorems at concrete inputs *)

Module Runs.

Import Demo.

Definition env_command : Environment string string :=
  environment "external_process" [inl unauthenticated; inr "page"] 200.
Definition env_expired : Environment string string :=
  environment "external_process"
    [inl unauthenticated; inl unauthenticated; inl unauthenticated] 200.
Definition env_conflict : Environment string string :=
  environment "standard" [inl already_exists] 200.
Definition env_flaky : Environment string string :=
  environment "standard" [inl unavailable; inl unavailable; inr "page"] 200.
Definition env_idp_down : Environment string string :=
  environment "basic" [] 500.
Definition env_create : Environment string string :=
  environment "standard" [inr "created"] 200.

(** The client once the command has produced its token. *)
Definition with_cmd_token : RawSynchronousFlyteClient :=
  set_access_token (client w0) "cmd-token" (Some "authorization").

(** The world after one failed attempt of [list_tasks_paginated] and one
    refresh by the command. *)
Definition w1 : World :=
  {| client := with_cmd_token; auth_client := None; rpc_calls := 1;
     trace := [Invoke list_tasks_paginated None; Refresh refresh_from_command;
               Run ["print-token"]] |}.

(** The world after two such rounds. *)
Definition w2 : World :=
  {| client := with_cmd_token; auth_client := None; rpc_calls := 2;
     trace := [Invoke list_tasks_paginated None; Refresh refresh_from_command;
               Run ["print-token"];
               Invoke list_tasks_paginated (_metadata with_cmd_token);
               Refresh refresh_from_command; Run ["print-token"]] |}.

(** A client for which the discovery of the PublicClientConfig failed. *)
Definition w_no_pcc : World := initial_world (new_client None (Some oam)).

End Runs.

Lemma handle_rpc_error_unauthenticated_witness :
  (unauthenticated_rounds Runs.env_command list_tasks_paginated "req" 1 Demo.w0
     = Some Runs.w1
   /\ call Runs.env_command list_tasks_paginated "req" Demo.w0
      = (Ok (VResponse "page"), invoked list_tasks_paginated Runs.w1)
   /\ refreshes (trace (invoked list_tasks_paginated Runs.w1)) = [refresh_from_command])
  /\ (unauthenticated_rounds Runs.env_expired list_tasks_paginated "req" 2 Demo.w0
        = Some Runs.w2
      /\ call Runs.env_expired list_tasks_paginated "req" Demo.w0
         = (Raised (FlyteAuthenticationException "token expired"),
            invoked list_tasks_paginated Runs.w2)
      /\ refreshes (trace (invoked list_tasks_paginated Runs.w2))
         = [refresh_from_command; refresh_from_command]).
Proof.
  split.
  - split; [reflexivity|].
    destruct (proj1 (handle_rpc_error_unauthenticated Runs.env_command true
                       list_tasks_paginated "req" 1 Demo.w0 Runs.w1 eq_refl)
                (VResponse "page") (invoked list_tasks_paginated Runs.w1))
      as (Hres & _ & Hrefresh & _).
    + unfold max_retries. lia.
    + reflexivity.
    + split; [exact Hres|]. exact (Hrefresh refresh_from_command eq_refl).
  - split; [reflexivity|].
    destruct (proj2 (handle_rpc_error_unauthenticated Runs.env_expired true
                       list_tasks_paginated "req" 2 Demo.w0 Runs.w2 eq_refl)
                Demo.unauthenticated (invoked list_tasks_paginated Runs.w2))
      as (Hres & _ & Hrefresh & _).
    + reflexivity.
    + reflexivity.
    + reflexivity.
    + split; [exact Hres|]. exact (Hrefresh refresh_from_command eq_refl).
Defined.

Lemma handle_rpc_error_conflict_witness :
  stub Runs.env_conflict create_task 0 None "req" = inl Demo.already_exists
  /\ exists w',
      trace w' = [Invoke create_task None]
      /\ call Runs.env_conflict create_task "req" Demo.w0
         = (Raised (FlyteEntityAlreadyExistsException Demo.already_exists), w').
Proof.
  split; [reflexivity|].
  destruct (handle_rpc_error_conflict Runs.env_conflict false create_task "req"
              Demo.w0 Demo.already_exists eq_refl)
    as (w' & Ht & _ & _ & Ha & _).
  exists w'. split; [exact Ht|]. exact (Ha eq_refl).
Defined.

Lemma handle_rpc_error_other_witness :
  stub Runs.env_flaky get_task 0 None "req" = inl Demo.unavailable
  /\ other_code UNAVAILABLE = true
  /\ exists w',
      call Runs.env_flaky get_task "req" Demo.w0 = (Ok (VResponse "page"), w')
      /\ sleeps (trace w') = [200; 400]%Z.
Proof.
  split; [reflexivity|]. split; [reflexivity|].
  destruct (proj2 (proj2 (handle_rpc_error_other Runs.env_flaky get_task "req"
                            Demo.w0 Demo.unavailable eq_refl eq_refl))
              Demo.unavailable "page" eq_refl eq_refl eq_refl eq_refl)
    as (w' & Hres & _ & Hs & _).
  exists w'. split; [exact Hres|exact Hs].
Defined.

Lemma refresh_standard_without_public_client_config_witness :
  _public_client_config (client Runs.w_no_pcc) = None
  /\ _refresh_credentials_standard Runs.env_create Runs.w_no_pcc
     = (Raised (AttributeError
          "'NoneType' object has no attribute 'authorization_metadata_key'"),
        Runs.w_no_pcc).
Proof.
  split; [reflexivity|].
  apply (refresh_standard_without_public_client_config Runs.env_create Runs.w_no_pcc).
  reflexivity.
Defined.

Lemma create_request_result_dropped_witness :
  create_decorated create_task = true
  /\ stub Runs.env_create create_task 0 None "req" = inr "created"
  /\ call Runs.env_create create_task "req" Demo.w0
     = (Ok VNone, invoked create_task Demo.w0).
Proof.
  split; [reflexivity|]. split; [reflexivity|].
  apply (create_request_result_dropped Runs.env_create create_task "req" Demo.w0
           "created"); reflexivity.
Defined.

Lemma get_refresh_handler_mapping_witness :
  "none" <> "standard" /\ "none" <> "basic" /\ "none" <> "client_credentials"
  /\ "none" <> "external_process"
  /\ exists msg, _get_refresh_handler "none" = inl (ValueError msg).
Proof.
  assert (H1 : "none" <> "standard") by (intro H; discriminate H).
  assert (H2 : "none" <> "basic") by (intro H; discriminate H).
  assert (H3 : "none" <> "client_credentials") by (intro H; discriminate H).
  assert (H4 : "none" <> "external_process") by (intro H; discriminate H).
  repeat (split; [assumption|]).
  destruct (get_refresh_handler_mapping Runs.env_create) as (_ & _ & _ & _ & H & _).
  exact (H "none" H1 H2 H3 H4).
Defined.

Lemma refresh_basic_non_200_witness :
  get_secret Runs.env_idp_down = inr "sec"
  /\ status_code (requests_post Runs.env_idp_down "https://idp/token" [] []) = 500%Z
  /\ exists w',
      _refresh_credentials_basic Runs.env_idp_down Demo.w0
        = (Raised (FlyteAuthenticationException "Non-200 received from IDP"), w')
      /\ client w' = client Demo.w0.
Proof.
  split; [reflexivity|]. split; [reflexivity|].
  destruct (refresh_basic_non_200 Runs.env_idp_down Demo.w0 Demo.oam Demo.pcc "sec"
              eq_refl eq_refl eq_refl)
    as (_ & _ & w' & Hres & Hc & _).
  - intros url data headers. simpl. lia.
  - exists w'. split; [exact Hres|exact Hc].
Defined.

(** ** The budget of the wrapper *)

(** [l] is [m] with some elements left out. *)
Inductive subsequence {A : Type} : list A -> list A -> Prop :=
| subsequence_nil (m : list A) : subsequence [] m
| subsequence_skip (x : A) (l m : list A) : subsequence l m -> subsequence l (x :: m)
| subsequence_take (x : A) (l m : list A) : subsequence l m -> subsequence (x :: l) (x :: m).

(** [wait_time] of the source, at index [i]. *)
Definition wait_time (i : nat) : Z := Z.min (200 * 2 ^ Z.of_nat i) max_wait_time.

Definition total (l : list Z) : Z := fold_right Z.add 0%Z l.

Lemma code_cases (c : StatusCode) :
  c = UNAUTHENTICATED \/ c = ALREADY_EXISTS \/ c = NOT_FOUND \/ other_code c = true.
Proof. destruct c; auto. Qed.

Lemma total_nonneg (m : list Z) : Forall (fun x => 0 <= x)%Z m -> (0 <= total m)%Z.
Proof.
  induction 1 as [|x m Hx _ IH]; unfold total in *; cbn [fold_right]; lia.
Qed.

Lemma subsequence_total_le (l m : list Z) :
  subsequence l m -> Forall (fun x => 0 <= x)%Z m -> (total l <= total m)%Z.
Proof.
  induction 1 as [m|x l m _ IH|x l m _ IH]; intro F.
  - now apply total_nonneg.
  - inversion F as [|? ? Hx Hm]; subst. specialize (IH Hm).
    unfold total in *; cbn [fold_right]; lia.
  - inversion F as [|? ? Hx Hm]; subst. specialize (IH Hm).
    unfold total in *; cbn [fold_right]; lia.
Qed.

(** Split an equation between two pairs without computing in its terms. *)
Ltac pair_eq H :=
  let H1 := fresh in
  let H2 := fresh in
  pose proof (f_equal fst H) as H1; pose proof (f_equal snd H) as H2;
  cbn [fst snd] in H1, H2; clear H;
  first [subst | idtac].

Section Budget.

Context {Request Response : Type}.
Variable env : Environment Request Response.

Abbreviation selected :=
  (fun h : RefreshHandler => _get_refresh_handler (AUTH_MODE env) = inr h).

Lemma invoked_footprint (m : Method) (w : World) :
  invocations (trace (invoked m w)) = invocations (trace w) + 1
  /\ refreshes (trace (invoked m w)) = refreshes (trace w)
  /\ sleeps (trace (invoked m w)) = sleeps (trace w).
Proof.
  cbn [invoked trace]. rewrite invocations_app, refreshes_app, sleeps_app. cbn.
  now rewrite !app_nil_r.
Qed.

Lemma slept_footprint (ms : Z) (w : World) :
  invocations (trace (slept ms w)) = invocations (trace w)
  /\ refreshes (trace (slept ms w)) = refreshes (trace w)
  /\ sleeps (trace (slept ms w)) = (sleeps (trace w) ++ [ms])%list.
Proof.
  cbn [slept trace]. rewrite invocations_app, refreshes_app, sleeps_app. cbn.
  now rewrite !app_nil_r, Nat.add_0_r.
Qed.

(** What one iteration adds to the trace: one stub invocation, and then
    nothing, or one call of the selected refresh handler, or one sleep. *)
Lemma body_footprint (retry : bool) (m : Method) (req : Request) (i : nat)
    (w w' : World) (r : Res (Flow Response)) :
  handler_body env retry (decorated env m) req i w = (r, w') ->
  invocations (trace w') = invocations (trace w) + 1
  /\ ((r <> Ok Continue
       /\ refreshes (trace w') = refreshes (trace w)
       /\ sleeps (trace w') = sleeps (trace w))
      \/ (i <> max_retries - 1
          /\ (exists h, selected h
                /\ refreshes (trace w') = (refreshes (trace w) ++ [h])%list)
          /\ sleeps (trace w') = sleeps (trace w))
      \/ (i <> max_retries - 1 /\ retry = true /\ r = Ok Continue
          /\ refreshes (trace w') = refreshes (trace w)
          /\ sleeps (trace w') = (sleeps (trace w) ++ [wait_time i])%list)).
Proof.
  intro H.
  destruct (invoked_footprint m w) as (Ii & Ir & Is).
  assert (Stop : forall x : Res (Flow Response), x <> Ok Continue ->
            (x, invoked m w) = (r, w') ->
            invocations (trace w') = invocations (trace w) + 1
            /\ ((r <> Ok Continue
                 /\ refreshes (trace w') = refreshes (trace w)
                 /\ sleeps (trace w') = sleeps (trace w))
                \/ (i <> max_retries - 1
                    /\ (exists h, selected h
                          /\ refreshes (trace w') = (refreshes (trace w) ++ [h])%list)
                    /\ sleeps (trace w') = sleeps (trace w))
                \/ (i <> max_retries - 1 /\ retry = true /\ r = Ok Continue
                    /\ refreshes (trace w') = refreshes (trace w)
                    /\ sleeps (trace w') = (sleeps (trace w) ++ [wait_time i])%list))).
  { intros x Hx Hxr. pair_eq Hxr. split; [exact Ii|]. left. auto. }
  destruct (decorated env m req w) as [[v|ex] w1] eqn:E;
    pose proof (decorated_world env m req w w1 _ E) as ->.
  - rewrite (body_return env retry _ req i w _ v E) in H.
    (eapply Stop; [|exact H]; discriminate).
  - assert (exists e, ex = ERpcError e) as [e ->].
    { rewrite decorated_eq in E.
      destruct (stub env m (rpc_calls w) (_metadata (client w)) req) as [e|x];
        inversion E; eauto. }
    destruct (code_cases (code e)) as [Hc|[Hc|[Hc|Hc]]].
    + rewrite (body_unauthenticated env retry _ req i w _ e E Hc) in H.
      destruct (i =? max_retries - 1)%nat eqn:Ei;
        [(eapply Stop; [|exact H]; discriminate)|].
      apply Nat.eqb_neq in Ei.
      destruct (_get_refresh_handler (AUTH_MODE env)) as [ex|h] eqn:Eh;
        [(eapply Stop; [|exact H]; discriminate)|].
      destruct (call_refresh_handler env h (invoked m w)) as [[u|ex] w2] eqn:Er;
        apply call_refresh_handler_footprint in Er as (_ & Hi & Hr & Hs);
        pair_eq H; rewrite Hi, Hr, Hs, Ii, Ir, Is;
        (split; [reflexivity|]); right; left; eauto.
    + rewrite (body_already_exists env retry _ req i w _ e E Hc) in H.
      (eapply Stop; [|exact H]; discriminate).
    + rewrite (body_not_found env retry _ req i w _ e E Hc) in H.
      (eapply Stop; [|exact H]; discriminate).
    + rewrite (body_other env retry _ req i w _ e E Hc) in H.
      destruct retry; cbn [negb orb] in H;
        [|(eapply Stop; [|exact H]; discriminate)].
      destruct (i =? max_retries - 1)%nat eqn:Ei;
        [(eapply Stop; [|exact H]; discriminate)|].
      apply Nat.eqb_neq in Ei. pair_eq H.
      destruct (slept_footprint (Z.min (200 * 2 ^ Z.of_nat i) 1000) (invoked m w))
        as (Si & Sr & Ss).
      rewrite Si, Sr, Ss, Ii, Ir, Is. split; [reflexivity|]. right; right.
      repeat split. exact Ei.
Qed.

(** What the loop adds to the trace, from index [i] to the last index. *)
Lemma loop_footprint (retry : bool) (m : Method) (req : Request) (k : nat) :
  forall i w r w',
    i + S k = max_retries ->
    for_range (handler_body env retry (decorated env m) req) (seq i (S k)) w = (r, w') ->
    exists lr ls,
      refreshes (trace w') = (refreshes (trace w) ++ lr)%list
      /\ sleeps (trace w') = (sleeps (trace w) ++ ls)%list
      /\ Forall selected lr
      /\ subsequence ls (map wait_time (seq i k))
      /\ (retry = false -> ls = [])
      /\ length lr + length ls <= k
      /\ invocations (trace w) + 1 <= invocations (trace w')
      /\ invocations (trace w') <= invocations (trace w) + 1 + length lr + length ls.
Proof.
  assert (Done : forall (w w1 : World) (lr : list RefreshHandler) (i n : nat),
            refreshes (trace w1) = (refreshes (trace w) ++ lr)%list ->
            sleeps (trace w1) = sleeps (trace w) ->
            invocations (trace w1) = invocations (trace w) + 1 ->
            Forall selected lr -> length lr <= n ->
            exists lr ls,
              refreshes (trace w1) = (refreshes (trace w) ++ lr)%list
              /\ sleeps (trace w1) = (sleeps (trace w) ++ ls)%list
              /\ Forall selected lr
              /\ subsequence ls (map wait_time (seq i n))
              /\ (retry = false -> ls = [])
              /\ length lr + length ls <= n
              /\ invocations (trace w) + 1 <= invocations (trace w1)
              /\ invocations (trace w1) <= invocations (trace w) + 1 + length lr + length ls).
  { intros w w1 lr i n Hr Hs Hi F L. exists lr, []. rewrite app_nil_r.
    repeat split; auto using subsequence_nil; cbn [length]; lia. }
  induction k as [|k IH]; intros i w r w' Hi H;
    cbn [seq] in H; rewrite for_range_cons in H;
    destruct (handler_body env retry (decorated env m) req i w) as [[[v|]|ex] w1] eqn:B;
    apply body_footprint in B as (Bi & [(Bc & Br & Bs)|[(Bn & (h & Bh & Br) & Bs)|
                                        (Bn & Bt & Bc & Br & Bs)]]);
    try (exfalso; lia); try (now elim Bc); try discriminate Bc.
  (* the last index *)
  - pair_eq H. apply (Done w _ [] i 0); auto. now rewrite app_nil_r.
  - pair_eq H. apply (Done w _ [] i 0); auto. now rewrite app_nil_r.
  (* an earlier index: the iteration returns *)
  - pair_eq H. apply (Done w _ [] i (S k)); auto; [now rewrite app_nil_r|cbn [length]; lia].
  - pair_eq H. apply (Done w _ [h] i (S k)); auto; cbn [length]; lia.
  (* an earlier index: the loop goes on after a refresh *)
  - apply IH in H as (lr & ls & Hr & Hs & Fr & Sub & Hf & Hl & Hi1 & Hi2); [|lia].
    exists (h :: lr), ls. rewrite Hr, Hs, Br, Bs, <- app_assoc. cbn [app length map seq].
    repeat split; auto using subsequence_skip; lia.
  (* an earlier index: the loop goes on after a sleep *)
  - apply IH in H as (lr & ls & Hr & Hs & Fr & Sub & Hf & Hl & Hi1 & Hi2); [|lia].
    exists lr, (wait_time i :: ls). rewrite Hr, Hs, Br, Bs, <- app_assoc.
    cbn [app length map seq]. repeat split; auto using subsequence_take; try lia.
    intro F. rewrite F in Bt. discriminate Bt.
  (* an earlier index: the iteration raises *)
  - pair_eq H. apply (Done w _ [] i (S k)); auto; [now rewrite app_nil_r|cbn [length]; lia].
  - pair_eq H. apply (Done w _ [h] i (S k)); auto; cbn [length]; lia.
Qed.

(** How an iteration that does not continue ends, by the answer of the
    stub. [w] is the world before the invocation and [j] the index. *)
Definition terminal (retry : bool) (m : Method) (req : Request) (j : nat)
    (w : World) (r : Res (value Response)) (w' : World) : Prop :=
  match stub env m (rpc_calls w) (_metadata (client w)) req with
  | inr x =>
      r = Ok (if create_decorated m then VNone else VResponse x) /\ w' = invoked m w
  | inl e =>
      (code e = UNAUTHENTICATED /\ j = max_retries - 1
       /\ r = Raised (FlyteAuthenticationException (rpc_str e)) /\ w' = invoked m w)
      \/ (code e = UNAUTHENTICATED /\ j < max_retries - 1
          /\ exists ex, r = Raised ex
               /\ ((_get_refresh_handler (AUTH_MODE env) = inl ex /\ w' = invoked m w)
                   \/ exists h, selected h
                        /\ call_refresh_handler env h (invoked m w) = (Raised ex, w')))
      \/ (code e = ALREADY_EXISTS
          /\ r = Raised (FlyteEntityAlreadyExistsException e) /\ w' = invoked m w)
      \/ (code e = NOT_FOUND
          /\ r = Raised (FlyteEntityNotExistException e) /\ w' = invoked m w)
      \/ (other_code (code e) = true /\ (retry = false \/ j = max_retries - 1)
          /\ r = Raised (ERpcError e) /\ w' = invoked m w)
  end.

(** An iteration either ends the call in one of the terminal ways, or goes on
    after a refresh that returned or after a sleep; in both cases the stub was
    invoked once more. *)
Lemma body_cases (retry : bool) (m : Method) (req : Request) (i : nat)
    (w w' : World) (r : Res (Flow Response)) :
  i < max_retries ->
  handler_body env retry (decorated env m) req i w = (r, w') ->
  rpc_calls w' = S (rpc_calls w)
  /\ ((exists v, r = Ok (Return v) /\ terminal retry m req i w (Ok v) w')
      \/ (exists ex, r = Raised ex /\ terminal retry m req i w (Raised ex) w')
      \/ (r = Ok Continue /\ i < max_retries - 1)).
Proof.
  intros Hi H. unfold terminal.
  pose proof (decorated_eq env m req w) as E.
  destruct (stub env m (rpc_calls w) (_metadata (client w)) req) as [e|x].
  - destruct (code_cases (code e)) as [Hc|[Hc|[Hc|Hc]]].
    + rewrite (body_unauthenticated env retry _ req i w _ e E Hc) in H.
      destruct (i =? max_retries - 1)%nat eqn:Ei.
      * apply Nat.eqb_eq in Ei. pair_eq H. split; [reflexivity|].
        right; left. eexists; split; [reflexivity|]. left. auto.
      * apply Nat.eqb_neq in Ei.
        destruct (_get_refresh_handler (AUTH_MODE env)) as [ex|h] eqn:Eh.
        -- pair_eq H. split; [reflexivity|]. right; left.
           eexists; split; [reflexivity|]. right; left.
           split; [exact Hc|]. split; [lia|].
           exists ex. split; [reflexivity|]. left. auto.
        -- destruct (call_refresh_handler env h (invoked m w)) as [[u|ex] w2] eqn:Er;
             pose proof (call_refresh_handler_footprint env h _ _ _ Er) as (Hrc & _);
             pair_eq H; (split; [exact Hrc|]).
           ++ right; right. split; [reflexivity|lia].
           ++ right; left. eexists; split; [reflexivity|]. right; left.
              split; [exact Hc|]. split; [lia|].
              exists ex. split; [reflexivity|]. right. exists h. auto.
    + rewrite (body_already_exists env retry _ req i w _ e E Hc) in H. pair_eq H.
      split; [reflexivity|]. right; left. eexists; split; [reflexivity|].
      right; right; left. auto.
    + rewrite (body_not_found env retry _ req i w _ e E Hc) in H. pair_eq H.
      split; [reflexivity|]. right; left. eexists; split; [reflexivity|].
      right; right; right; left. auto.
    + rewrite (body_other env retry _ req i w _ e E Hc) in H.
      destruct retry; cbn [negb orb] in H.
      * destruct (i =? max_retries - 1)%nat eqn:Ei.
        -- apply Nat.eqb_eq in Ei. pair_eq H. split; [reflexivity|]. right; left.
           eexists; split; [reflexivity|]. right; right; right; right. auto.
        -- apply Nat.eqb_neq in Ei. pair_eq H. split; [reflexivity|].
           right; right. split; [reflexivity|lia].
      * pair_eq H. split; [reflexivity|]. right; left.
        eexists; split; [reflexivity|]. right; right; right; right. auto.
  - rewrite (body_return env retry _ req i w _ _ E) in H. pair_eq H.
    split; [reflexivity|]. left. eexists; split; [reflexivity|]. auto.
Qed.

(** The call ends at some index [j], in one of the terminal ways, after [j]
    earlier invocations of the stub. *)
Lemma loop_terminal (retry : bool) (m : Method) (req : Request) (k : nat) :
  forall i w r w',
    i + S k = max_retries ->
    for_range (handler_body env retry (decorated env m) req) (seq i (S k)) w = (r, w') ->
    exists j w1,
      i <= j < max_retries
      /\ rpc_calls w1 = rpc_calls w + (j - i)
      /\ terminal retry m req j w1 r w'.
Proof.
  induction k as [|k IH]; intros i w r w' Hi H;
    cbn [seq] in H; rewrite for_range_cons in H;
    destruct (handler_body env retry (decorated env m) req i w) as [[[v|]|ex] w1] eqn:B;
    apply body_cases in B as (Brc & [(v' & Bv & T)|[(ex' & Bx & T)|(Bc & Bi)]]);
    try lia; try discriminate.
  - injection Bv as <-. pair_eq H. exists i, w. rewrite Nat.sub_diag, Nat.add_0_r.
    repeat split; auto; lia.
  - injection Bx as <-. pair_eq H. exists i, w. rewrite Nat.sub_diag, Nat.add_0_r.
    repeat split; auto; lia.
  - injection Bv as <-. pair_eq H. exists i, w. rewrite Nat.sub_diag, Nat.add_0_r.
    repeat split; auto; lia.
  - apply IH in H as (j & w2 & Hj & Hrc & T); [|lia].
    exists j, w2. repeat split; auto; lia.
  - injection Bx as <-. pair_eq H. exists i, w. rewrite Nat.sub_diag, Nat.add_0_r.
    repeat split; auto; lia.
Qed.

(** X1. Whatever the stub and the refresh handlers do, one call of a wrapped
    method invokes the stub at least once and at most [max_retries] times. *)
Theorem handle_rpc_error_invocation_bound (retry : bool) (m : Method) (req : Request)
    (w : World) :
  let w' := snd (_handle_rpc_error env retry (decorated env m) req w) in
  invocations (trace w) + 1 <= invocations (trace w')
  /\ invocations (trace w') <= invocations (trace w) + max_retries.
Proof.
  cbv zeta. unfold _handle_rpc_error.
  destruct (for_range (handler_body env retry (decorated env m) req) (seq 0 max_retries) w)
    as [r w'] eqn:H.
  apply (loop_footprint retry m req 2 0) in H
    as (lr & ls & _ & _ & _ & _ & _ & Hl & H1 & H2); [|reflexivity].
  cbn [snd]. unfold max_retries. lia.
Qed.

(** X2. The sleeps of one call are taken, in order, from 200 ms and 400 ms:
    a call never sleeps more than twice nor more than 600 ms in total, and it
    does not sleep at all when [retry] is false. *)
Theorem handle_rpc_error_sleep_budget (retry : bool) (m : Method) (req : Request)
    (w : World) :
  let w' := snd (_handle_rpc_error env retry (decorated env m) req w) in
  exists ls,
    sleeps (trace w') = (sleeps (trace w) ++ ls)%list
    /\ subsequence ls [200; 400]%Z
    /\ (total ls <= 600)%Z
    /\ (retry = false -> ls = []).
Proof.
  cbv zeta. unfold _handle_rpc_error.
  destruct (for_range (handler_body env retry (decorated env m) req) (seq 0 max_retries) w)
    as [r w'] eqn:H.
  apply (loop_footprint retry m req 2 0) in H
    as (lr & ls & _ & Hs & _ & Sub & Hf & _); [|reflexivity].
  change (map wait_time (seq 0 2)) with [200; 400]%Z in Sub.
  exists ls. cbn [snd]. repeat split; auto.
  change 600%Z with (total [200; 400]%Z).
  apply subsequence_total_le; [exact Sub|]. repeat constructor; lia.
Qed.

(** X3. One call runs a refresh handler at most [max_retries - 1] times, and
    each time it is the handler that the selector returns for the configured
    mode. *)
Theorem handle_rpc_error_refresh_budget (retry : bool) (m : Method) (req : Request)
    (w : World) :
  let w' := snd (_handle_rpc_error env retry (decorated env m) req w) in
  exists lr,
    refreshes (trace w') = (refreshes (trace w) ++ lr)%list
    /\ length lr <= max_retries - 1
    /\ Forall (fun h => _get_refresh_handler (AUTH_MODE env) = inr h) lr.
Proof.
  cbv zeta. unfold _handle_rpc_error.
  destruct (for_range (handler_body env retry (decorated env m) req) (seq 0 max_retries) w)
    as [r w'] eqn:H.
  apply (loop_footprint retry m req 2 0) in H
    as (lr & ls & Hr & _ & F & _ & _ & Hl & _); [|reflexivity].
  exists lr. cbn [snd]. repeat split; auto. unfold max_retries. lia.
Qed.

(** X4. With [retry=False] (the methods under [@_handle_rpc_error()]: create,
    update, recover, terminate, relaunch, register) the request is sent again
    only after a refresh of the credentials: the stub invocations of one call
    are at most one more than its refreshes, and the call never sleeps. *)
Theorem no_retry_resends_only_after_refresh (m : Method) (req : Request) (w : World) :
  let w' := snd (_handle_rpc_error env false (decorated env m) req w) in
  invocations (trace w') + length (refreshes (trace w))
  <= invocations (trace w) + 1 + length (refreshes (trace w'))
  /\ sleeps (trace w') = sleeps (trace w).
Proof.
  cbv zeta. unfold _handle_rpc_error.
  destruct (for_range (handler_body env false (decorated env m) req) (seq 0 max_retries) w)
    as [r w'] eqn:H.
  apply (loop_footprint false m req 2 0) in H
    as (lr & ls & Hr & Hs & _ & _ & Hf & _ & _ & H2); [|reflexivity].
  cbn [snd]. rewrite Hr, Hs, (Hf eq_refl), length_app, app_nil_r in *.
  cbn [length] in H2. split; [lia|reflexivity].
Qed.

(** X5. When a call returns, what it returns comes from the last answer of the
    stub, which was a success, to the request as sent with the metadata that
    the client holds at the end; the loop never ends by falling through. For a
    method without [@_handle_invalid_create_request] the value is that
    response. *)
Theorem handle_rpc_error_returns_last_answer (m : Method) (req : Request)
    (w w' : World) (v : value Response) :
  call env m req w = (Ok v, w') ->
  exists x,
    stub env m (rpc_calls w' - 1) (_metadata (client w')) req = inr x
    /\ v = (if create_decorated m then VNone else VResponse x)
    /\ rpc_calls w < rpc_calls w' <= rpc_calls w + max_retries.
Proof.
  unfold call, _handle_rpc_error. intro H.
  apply (loop_terminal (retry_of m) m req 2 0) in H as (j & w1 & Hj & Hrc & T);
    [|reflexivity].
  unfold terminal in T.
  destruct (stub env m (rpc_calls w1) (_metadata (client w1)) req) as [e|x] eqn:E.
  - destruct T as [(_ & _ & F & _)|[(_ & _ & ex & F & _)|[(_ & F & _)|[(_ & F & _)|
                    (_ & _ & F & _)]]]]; discriminate F.
  - destruct T as (Hv & ->). injection Hv as ->. exists x.
    cbn [invoked rpc_calls client].
    replace (S (rpc_calls w1) - 1) with (rpc_calls w1) by lia.
    repeat split; auto; lia.
Qed.

(** X6. Every call ends in one of the terminal ways of [terminal], at an
    index [j < max_retries] and after [j] earlier invocations: a response of
    the stub; [FlyteAuthenticationException] for UNAUTHENTICATED at the last
    index; the exception of the selector or of the refresh handler for
    UNAUTHENTICATED at an earlier index; the two entity exceptions for
    ALREADY_EXISTS and NOT_FOUND; the [RpcError] itself for any other code,
    and then [retry] is false or the index is the last one. *)
Theorem handle_rpc_error_terminal_states (retry : bool) (m : Method) (req : Request)
    (w : World) :
  let r := fst (_handle_rpc_error env retry (decorated env m) req w) in
  let w' := snd (_handle_rpc_error env retry (decorated env m) req w) in
  exists j w1,
    j < max_retries
    /\ rpc_calls w1 = rpc_calls w + j
    /\ terminal retry m req j w1 r w'.
Proof.
  cbv zeta. unfold _handle_rpc_error.
  destruct (for_range (handler_body env retry (decorated env m) req) (seq 0 max_retries) w)
    as [r w'] eqn:H.
  apply (loop_terminal retry m req 2 0) in H as (j & w1 & Hj & Hrc & T); [|reflexivity].
  exists j, w1. cbn [fst snd]. rewrite Nat.sub_0_r in Hrc. repeat split; auto; lia.
Qed.

End Budget.

(** ** Mixed failures *)

Section Mixed.

Context {Request Response : Type}.
Variable env : Environment Request Response.

Lemma handler_cons (retry : bool) (fn : Request -> M (value Response)) (req : Request)
    (w : World) :
  _handle_rpc_error env retry fn req w
  = match handler_body env retry fn req 0 w with
    | (Ok (Return v), w') => (Ok v, w')
    | (Ok Continue, w') =>
        for_range (handler_body env retry fn req) [1; 2] w'
    | (Raised e, w') => (Raised e, w')
    end.
Proof. unfold _handle_rpc_error. cbn [max_retries seq]. apply for_range_cons. Qed.

Lemma decorated_failure (m : Method) (req : Request) (w : World) (e : RpcError) :
  stub env m (rpc_calls w) (_metadata (client w)) req = inl e ->
  decorated env m req w = (Raised (ERpcError e), invoked m w).
Proof. intro H. now rewrite decorated_eq, H. Qed.

(** X7. With a configured mode that the selector does not know, an
    UNAUTHENTICATED answer on the first attempt makes the call raise the
    [ValueError] of the selector: the stub is invoked once, no refresh handler
    runs and the client is left as it was, whatever [retry] is. *)
Theorem unauthenticated_with_unknown_mode (retry : bool) (m : Method) (req : Request)
    (w : World) (e : RpcError) :
  stub env m (rpc_calls w) (_metadata (client w)) req = inl e ->
  code e = UNAUTHENTICATED ->
  AUTH_MODE env <> "standard" -> AUTH_MODE env <> "basic" ->
  AUTH_MODE env <> "client_credentials" -> AUTH_MODE env <> "external_process" ->
  exists msg,
    _handle_rpc_error env retry (decorated env m) req w
    = (Raised (ValueError msg), invoked m w).
Proof.
  intros H Hc H1 H2 H3 H4. apply decorated_failure in H.
  rewrite handler_cons, (body_unauthenticated env retry _ req 0 w _ e H Hc).
  cbn [max_retries Nat.sub Nat.eqb]. unfold _get_refresh_handler.
  apply String.eqb_neq in H1, H2, H3, H4. rewrite H1, H2, H3, H4. cbn [orb].
  eexists. reflexivity.
Qed.

(** X8. When the refresh handler raises after an UNAUTHENTICATED answer, the
    call raises that exception as it is: the stub is not invoked again and
    the failure of the stub is dropped. *)
Theorem refresh_failure_ends_the_call (retry : bool) (m : Method) (req : Request)
    (w w' : World) (e : RpcError) (h : RefreshHandler) (ex : Exn) :
  stub env m (rpc_calls w) (_metadata (client w)) req = inl e ->
  code e = UNAUTHENTICATED ->
  _get_refresh_handler (AUTH_MODE env) = inr h ->
  call_refresh_handler env h (invoked m w) = (Raised ex, w') ->
  _handle_rpc_error env retry (decorated env m) req w = (Raised ex, w')
  /\ invocations (trace w') = invocations (trace w) + 1
  /\ rpc_calls w' = S (rpc_calls w).
Proof.
  intros H Hc Hh Hr. apply decorated_failure in H.
  rewrite handler_cons, (body_unauthenticated env retry _ req 0 w _ e H Hc).
  cbn [max_retries Nat.sub Nat.eqb]. rewrite Hh, Hr. split; [reflexivity|].
  apply call_refresh_handler_footprint in Hr as (Hrc & Hi & _).
  rewrite Hi, Hrc. destruct (invoked_footprint m w) as (Ii & _). now rewrite Ii.
Qed.

(** X9. The index of the loop is shared by the two kinds of retry: for a
    method with [retry=True], when the first attempt fails with
    UNAUTHENTICATED and is followed by a refresh, and the second fails with
    another code, the call sleeps 400 ms (not 200 ms) before the third
    attempt, whose response it returns. *)
Theorem backoff_after_refresh (m : Method) (req : Request) (w w1 : World)
    (e : RpcError) (x : Response) :
  retry_of m = true ->
  unauthenticated_rounds env m req 1 w = Some w1 ->
  stub env m (rpc_calls w1) (_metadata (client w1)) req = inl e ->
  other_code (code e) = true ->
  stub env m (S (rpc_calls w1)) (_metadata (client w1)) req = inr x ->
  call env m req w = (Ok (VResponse x), invoked m (slept 400 (invoked m w1)))
  /\ sleeps (trace (invoked m (slept 400 (invoked m w1))))
     = (sleeps (trace w) ++ [400]%Z)%list.
Proof.
  intros Hr Hu H1 Hc H2.
  pose proof (unauthenticated_rounds_footprint env m req 1 w w1 Hu) as (_ & Hs & _).
  split.
  - unfold call, _handle_rpc_error. rewrite Hr.
    change max_retries with (1 + 2).
    rewrite (for_range_rounds env true m req 1 0 2 w w1 Hu) by (unfold max_retries; lia).
    cbn [Nat.add seq]. apply decorated_failure in H1.
    rewrite for_range_cons, (body_other env true _ req 1 w1 _ e H1 Hc).
    cbn [negb orb Nat.eqb max_retries Nat.sub].
    change (Z.min (200 * 2 ^ Z.of_nat 1) 1000) with 400%Z.
    rewrite for_range_cons.
    rewrite (body_return env true _ req 2 (slept 400 (invoked m w1))
               (invoked m (slept 400 (invoked m w1))) (VResponse x)); [reflexivity|].
    rewrite decorated_eq. cbn [slept invoked rpc_calls client].
    now rewrite H2, (retry_not_create m Hr).
  - destruct (invoked_footprint m (slept 400 (invoked m w1))) as (_ & _ & ->).
    destruct (slept_footprint 400 (invoked m w1)) as (_ & _ & ->).
    destruct (invoked_footprint m w1) as (_ & _ & ->). now rewrite Hs.
Qed.

(** X10. An UNAUTHENTICATED answer on the last attempt is never followed by a
    refresh, even when no refresh was tried before: for [retry=True], two
    failures with other codes and then UNAUTHENTICATED make the call raise
    [FlyteAuthenticationException] with the credentials untouched. *)
Theorem unauthenticated_on_last_attempt (m : Method) (req : Request) (w : World)
    (e0 e1 e2 : RpcError) :
  stub env m (rpc_calls w) (_metadata (client w)) req = inl e0 ->
  other_code (code e0) = true ->
  stub env m (S (rpc_calls w)) (_metadata (client w)) req = inl e1 ->
  other_code (code e1) = true ->
  stub env m (S (S (rpc_calls w))) (_metadata (client w)) req = inl e2 ->
  code e2 = UNAUTHENTICATED ->
  exists w',
    _handle_rpc_error env true (decorated env m) req w
    = (Raised (FlyteAuthenticationException (rpc_str e2)), w')
    /\ client w' = client w
    /\ auth_client w' = auth_client w
    /\ refreshes (trace w') = refreshes (trace w).
Proof.
  intros H0 C0 H1 C1 H2 C2.
  set (w1 := slept 200 (invoked m w)).
  set (w2 := slept 400 (invoked m w1)).
  exists (invoked m w2). split; [|split; [|split]]; try reflexivity.
  - apply decorated_failure in H0.
    assert (E1 : decorated env m req w1 = (Raised (ERpcError e1), invoked m w1))
      by (apply decorated_failure; exact H1).
    assert (E2 : decorated env m req w2 = (Raised (ERpcError e2), invoked m w2))
      by (apply decorated_failure; exact H2).
    rewrite handler_cons, (body_other env true _ req 0 w _ e0 H0 C0).
    cbn [negb orb Nat.eqb max_retries Nat.sub].
    change (slept (Z.min (200 * 2 ^ Z.of_nat 0) 1000) (invoked m w)) with w1.
    rewrite for_range_cons, (body_other env true _ req 1 w1 _ e1 E1 C1).
    cbn [negb orb Nat.eqb max_retries Nat.sub].
    change (slept (Z.min (200 * 2 ^ Z.of_nat 1) 1000) (invoked m w1)) with w2.
    rewrite for_range_cons, (body_unauthenticated env true _ req 2 w2 _ e2 E2 C2).
    reflexivity.
  - unfold w2, w1.
    destruct (invoked_footprint m (slept 400 (invoked m (slept 200 (invoked m w)))))
      as (_ & -> & _).
    destruct (slept_footprint 400 (invoked m (slept 200 (invoked m w)))) as (_ & -> & _).
    destruct (invoked_footprint m (slept 200 (invoked m w))) as (_ & -> & _).
    destruct (slept_footprint 200 (invoked m w)) as (_ & -> & _).
    now destruct (invoked_footprint m w) as (_ & -> & _).
Qed.

End Mixed.

(** ** More on the refresh handlers *)

(** Case analysis on every test of a computation that was run: the innermost
    scrutinee first. *)
Ltac crush_match H :=
  repeat (match type of H with
          | context [match ?x with _ => _ end] =>
              lazymatch x with
              | context [match _ with _ => _ end] => fail
              | _ => let E := fresh "E" in
                     destruct x eqn:E; cbv beta iota in H;
                     cbn [client auth_client rpc_calls trace] in H
              end
          end).

Ltac run_handlers H :=
  cbv [call_refresh_handler _refresh_credentials_standard _refresh_credentials_basic
       _refresh_credentials_from_command _refresh_credentials_noop get_token
       subprocess_run_check self_set_access_token credentials_access_token
       bind try_except lift ret raise emit get_self put_self get_auth_client
       put_auth_client] in H;
  cbn [client auth_client rpc_calls trace] in H.

Lemma dict_get_KeyError (key : string) (d : list (string * JsonValue)) (ex : Exn) :
  dict_get key d = inl ex -> ex = KeyError key.
Proof.
  induction d as [|[k v] d IH]; cbn [dict_get]; intro H.
  - now injection H as <-.
  - destruct (String.eqb k key); [discriminate H|auto].
Qed.

Section MoreHandlers.

Context {Request Response : Type}.
Variable env : Environment Request Response.

(** What a call of a refresh handler does to the client: nothing, or, when it
    returns, one [set_access_token]. *)
Lemma refresh_client_effect (h : RefreshHandler) (w w' : World) (r : Res unit) :
  call_refresh_handler env h w = (r, w') ->
  client w' = client w
  \/ (r = Ok tt /\ exists t k, client w' = set_access_token (client w) t k).
Proof.
  intro H. destruct h; run_handlers H; crush_match H;
    pair_eq H; cbn [client]; eauto.
Qed.


(** The body and the answer of the POST of the direct-secret handler. *)
Definition basic_body (pcc : PublicClientAuthConfigResponse) : list (string * string) :=
  [("grant_type", "client_credentials"); ("scope", basic_scope env pcc)].

Definition basic_response (oam : OAuth2MetadataResponse)
    (pcc : PublicClientAuthConfigResponse) (secret : string) : HttpResponse :=
  requests_post env (token_endpoint oam) (basic_body pcc) (basic_headers env secret).

(** X12. When the token endpoint answers 200 with a JSON object that has
    [access_token] and [expires_in], the direct-secret handler posts once
    (grant [client_credentials], the scopes of the configuration or else those
    of the PublicClientConfig joined by commas, the basic header) and stores
    the token under the key that the server advertises; when that key is
    empty the token is stored under the key [None], not under the default
    ["authorization"]. *)
Theorem refresh_basic_success (w : World) (oam : OAuth2MetadataResponse)
    (pcc : PublicClientAuthConfigResponse) (secret : string)
    (d : list (string * JsonValue)) (tok exp : JsonValue) :
  _oauth2_metadata (client w) = Some oam ->
  _public_client_config (client w) = Some pcc ->
  get_secret env = inr secret ->
  status_code (basic_response oam pcc secret) = 200%Z ->
  json (basic_response oam pcc secret) = Some d ->
  dict_get "access_token" d = inr tok ->
  dict_get "expires_in" d = inr exp ->
  exists w',
    _refresh_credentials_basic env w = (Ok tt, w')
    /\ trace w' = (trace w ++
         [Post (token_endpoint oam) (basic_body pcc) (basic_headers env secret)])%list
    /\ _metadata (client w')
       = Some [(if String.eqb (authorization_metadata_key pcc) ""
                then None else Some (authorization_metadata_key pcc),
                "Bearer " ++ JsonValue_str tok)]
    /\ (PyStr.contains "Bearer " (JsonValue_str tok) = false ->
        check_access_token (client w') (JsonValue_str tok) = inr true).
Proof.
  intros Ho Hp Hs Hst Hj Ht He.
  unfold basic_response, basic_body, basic_headers, basic_scope in Hst, Hj.
  unfold _refresh_credentials_basic, bind, get_self. rewrite Ho, Hp, Hs.
  cbn [lift ret]. unfold get_token, bind, emit.
  cbn [app]. rewrite Hst, Hj. cbn [Z.eqb Pos.eqb negb].
  unfold bind. rewrite Ht, He. cbn [lift ret fst].
  unfold self_set_access_token, bind, get_self, put_self. cbn [client].
  eexists. split; [reflexivity|]. cbn [trace client].
  split; [reflexivity|]. split; [reflexivity|].
  intro Hplain. now apply check_after_set_plain.
Qed.

(** X13. Without a secret (none configured, or an empty one) the direct-secret
    handler raises [FlyteAuthenticationException] before anything is posted:
    the world is left as it was. *)
Theorem refresh_basic_without_secret (w : World) (oam : OAuth2MetadataResponse)
    (pcc : PublicClientAuthConfigResponse) :
  _oauth2_metadata (client w) = Some oam ->
  _public_client_config (client w) = Some pcc ->
  CLIENT_CREDENTIALS_SECRET env = None \/ CLIENT_CREDENTIALS_SECRET env = Some "" ->
  _refresh_credentials_basic env w
  = (Raised (FlyteAuthenticationException "No secret could be found"), w).
Proof.
  intros Ho Hp Hs.
  unfold _refresh_credentials_basic, bind, get_self, get_secret. rewrite Ho, Hp.
  destruct Hs as [-> | ->]; reflexivity.
Qed.

(** X14. An answer 200 whose JSON object has the token but no [expires_in]
    makes the direct-secret handler raise [KeyError]: the token is not stored,
    although [expires_in] is only logged. *)
Theorem refresh_basic_without_expires_in (w : World) (oam : OAuth2MetadataResponse)
    (pcc : PublicClientAuthConfigResponse) (secret : string)
    (d : list (string * JsonValue)) (tok : JsonValue) (ex : Exn) :
  _oauth2_metadata (client w) = Some oam ->
  _public_client_config (client w) = Some pcc ->
  get_secret env = inr secret ->
  status_code (basic_response oam pcc secret) = 200%Z ->
  json (basic_response oam pcc secret) = Some d ->
  dict_get "access_token" d = inr tok ->
  dict_get "expires_in" d = inl ex ->
  exists w',
    _refresh_credentials_basic env w = (Raised (KeyError "expires_in"), w')
    /\ client w' = client w.
Proof.
  intros Ho Hp Hs Hst Hj Ht He.
  pose proof (dict_get_KeyError _ _ _ He) as ->.
  unfold basic_response, basic_body, basic_headers, basic_scope in Hst, Hj.
  unfold _refresh_credentials_basic, bind, get_self. rewrite Ho, Hp, Hs.
  cbn [lift ret]. unfold get_token, bind, emit.
  cbn [app]. rewrite Hst, Hj. cbn [Z.eqb Pos.eqb negb].
  unfold bind. rewrite Ht, He. cbn [lift ret raise].
  eexists. split; reflexivity.
Qed.

(** X15. When the command exits with a status other than 0, the
    external-command handler raises [FlyteAuthenticationException] with the
    text of the [CalledProcessError], and the client is left as it was. *)
Theorem refresh_from_command_nonzero_exit (w : World) (p : CompletedProcess) :
  subprocess_run env (COMMAND env) = inr p ->
  returncode p <> 0%Z ->
  exists w',
    _refresh_credentials_from_command env w
      = (Raised (FlyteAuthenticationException
           ("Problems refreshing token with command: "
              ++ str_CalledProcessError env (COMMAND env) (returncode p))), w')
    /\ client w' = client w
    /\ trace w' = (trace w ++ [Run (COMMAND env)])%list.
Proof.
  intros Hrun Hrc. apply Z.eqb_neq in Hrc.
  unfold _refresh_credentials_from_command, bind, try_except,
    subprocess_run_check, bind, emit.
  rewrite Hrun. cbn [lift ret]. rewrite Hrc. cbn.
  eexists. repeat split.
Qed.

(** X16. Only [CalledProcessError] is turned into an authentication error:
    when the command cannot be run at all, the exception of [subprocess.run]
    goes through the external-command handler as it is. *)
Theorem refresh_from_command_not_started (w : World) (ex : Exn) :
  subprocess_run env (COMMAND env) = inl ex ->
  (forall c rc, ex <> CalledProcessError c rc) ->
  exists w',
    _refresh_credentials_from_command env w = (Raised ex, w')
    /\ client w' = client w.
Proof.
  intros Hrun Hn.
  unfold _refresh_credentials_from_command, bind, try_except,
    subprocess_run_check, bind, emit.
  rewrite Hrun. cbn [lift raise].
  destruct ex; try (eexists; split; reflexivity). now elim (Hn cmd returncode0).
Qed.

(** The persistent client that the standard handler obtains. *)
Definition standard_client (w : World) (oam : OAuth2MetadataResponse)
    (pcc : PublicClientAuthConfigResponse) : AuthorizationClient :=
  get_client env (redirect_uri pcc) (client_id pcc) (scopes pcc)
    (authorization_endpoint oam) (token_endpoint oam) (auth_client w).

(** X17. When the persistent client holds valid credentials whose token is not
    the one of the client, the standard handler adopts that token and clears
    the persistent client; neither the refresh nor the interactive flow is
    run. *)
Theorem refresh_standard_adopts (w : World) (oam : OAuth2MetadataResponse)
    (pcc : PublicClientAuthConfigResponse) (t : string) :
  _oauth2_metadata (client w) = Some oam ->
  _public_client_config (client w) = Some pcc ->
  has_valid_credentials (standard_client w oam pcc) = true ->
  credentials (standard_client w oam pcc) = Some t ->
  check_access_token (client w) t = inr false ->
  _refresh_credentials_standard env w
  = (Ok tt,
     {| client := set_access_token (client w) t
                    (or_None (authorization_metadata_key pcc));
        auth_client := Some (clear env (standard_client w oam pcc));
        rpc_calls := rpc_calls w;
        trace := trace w |}).
Proof.
  intros Ho Hp Hv Hc Hk. unfold standard_client in Hv, Hc.
  unfold _refresh_credentials_standard, bind, get_self. rewrite Hp, Ho.
  cbn [ret]. unfold get_auth_client, put_auth_client, bind.
  cbn [client auth_client]. rewrite Hv.
  unfold credentials_access_token, bind. rewrite Hc. cbn [ret].
  cbn [client]. rewrite Hk. cbn [lift ret negb].
  unfold self_set_access_token, bind, get_self, put_self. reflexivity.
Qed.

(** X18. When the persistent client has no valid credentials, or its token is
    the one that the client already sends, the standard handler renews: it
    refreshes when the persistent client can, and runs the interactive flow
    otherwise. The token obtained is stored; an exception of the flow goes
    through and the client is left as it was. *)
Theorem refresh_standard_renews (w : World) (oam : OAuth2MetadataResponse)
    (pcc : PublicClientAuthConfigResponse) :
  _oauth2_metadata (client w) = Some oam ->
  _public_client_config (client w) = Some pcc ->
  (has_valid_credentials (standard_client w oam pcc) = false
   \/ exists t, credentials (standard_client w oam pcc) = Some t
                /\ check_access_token (client w) t = inr true) ->
  let a := standard_client w oam pcc in
  let flow := if can_refresh_token a
              then refresh_access_token env a
              else start_authorization_flow env a in
  (forall a' t',
      flow = inr a' -> credentials a' = Some t' ->
      _refresh_credentials_standard env w
      = (Ok tt,
         {| client := set_access_token (client w) t'
                        (or_None (authorization_metadata_key pcc));
            auth_client := Some a';
            rpc_calls := rpc_calls w;
            trace := trace w |}))
  /\ (forall ex,
        flow = inl ex ->
        _refresh_credentials_standard env w
        = (Raised ex,
           {| client := client w; auth_client := Some a;
              rpc_calls := rpc_calls w; trace := trace w |})).
Proof.
  intros Ho Hp Hcase a flow. subst a flow. unfold standard_client in *.
  assert (Pre : forall k : bool -> M unit,
            bind (if has_valid_credentials
                       (get_client env (redirect_uri pcc) (client_id pcc) (scopes pcc)
                          (authorization_endpoint oam) (token_endpoint oam)
                          (auth_client w))
                  then bind (credentials_access_token
                               (get_client env (redirect_uri pcc) (client_id pcc)
                                  (scopes pcc) (authorization_endpoint oam)
                                  (token_endpoint oam) (auth_client w)))
                         (fun t => bind (lift (check_access_token (client w) t))
                                     (fun same => ret (negb same)))
                  else ret false) k
              {| client := client w;
                 auth_client := Some (get_client env (redirect_uri pcc) (client_id pcc)
                                        (scopes pcc) (authorization_endpoint oam)
                                        (token_endpoint oam) (auth_client w));
                 rpc_calls := rpc_calls w; trace := trace w |}
            = k false
              {| client := client w;
                 auth_client := Some (get_client env (redirect_uri pcc) (client_id pcc)
                                        (scopes pcc) (authorization_endpoint oam)
                                        (token_endpoint oam) (auth_client w));
                 rpc_calls := rpc_calls w; trace := trace w |}).
  { intro k. destruct Hcase as [Hv|(t & Hc & Hk)].
    - rewrite Hv. reflexivity.
    - destruct (has_valid_credentials _); [|reflexivity].
      unfold bind, credentials_access_token. rewrite Hc. cbn [ret]. rewrite Hk.
      reflexivity. }
  split.
  - intros a' t' Hf Hc.
    unfold _refresh_credentials_standard. unfold bind at 1 2. unfold get_self.
    rewrite Hp, Ho. cbn [ret]. unfold bind at 1. unfold get_auth_client.
    unfold bind at 1. unfold put_auth_client at 1. rewrite Pre.
    cbv beta iota. unfold bind at 1.
    destruct (can_refresh_token _); rewrite Hf; cbn [lift ret];
      unfold put_auth_client, bind, credentials_access_token; rewrite Hc;
      reflexivity.
  - intros ex Hf.
    unfold _refresh_credentials_standard. unfold bind at 1 2. unfold get_self.
    rewrite Hp, Ho. cbn [ret]. unfold bind at 1. unfold get_auth_client.
    unfold bind at 1. unfold put_auth_client at 1. rewrite Pre.
    cbv beta iota. unfold bind at 1.
    destruct (can_refresh_token _); rewrite Hf; reflexivity.
Qed.

End MoreHandlers.

(** ** What a call does to the client *)

(** [c'] is [c], or [c] after a [set_access_token]. *)
Definition evolves (c c' : RawSynchronousFlyteClient) : Prop :=
  c' = c \/ exists t k, c' = set_access_token c t k.

Lemma evolves_refl (c : RawSynchronousFlyteClient) : evolves c c.
Proof. now left. Qed.

Lemma evolves_trans (a b c : RawSynchronousFlyteClient) :
  evolves a b -> evolves b c -> evolves a c.
Proof.
  intros [->|(t & k & ->)] [->|(t' & k' & ->)]; unfold evolves; eauto.
  right. exists t', k'. reflexivity.
Qed.

(** The metadata that [set_access_token] produces, or none at all. *)
Definition credentials_shape (c : RawSynchronousFlyteClient) : Prop :=
  _metadata c = None \/ exists t k, _metadata c = Some [(k, "Bearer " ++ t)].

Lemma evolves_shape (c c' : RawSynchronousFlyteClient) :
  evolves c c' -> credentials_shape c -> credentials_shape c'.
Proof.
  intros [->|(t & k & ->)] H; [exact H|]. right. exists t, k. reflexivity.
Qed.

Section ClientInvariant.

Context {Request Response : Type}.
Variable env : Environment Request Response.

Lemma body_evolves (retry : bool) (m : Method) (req : Request) (i : nat)
    (w w' : World) (r : Res (Flow Response)) :
  handler_body env retry (decorated env m) req i w = (r, w') ->
  evolves (client w) (client w').
Proof.
  intro H. cbv [handler_body try_except bind lift ret raise emit] in H.
  rewrite decorated_eq in H. crush_match H; pair_eq H;
    try (left; reflexivity).
  all: match goal with
       | E : call_refresh_handler _ _ _ = _ |- _ =>
           apply refresh_client_effect in E as [E|(_ & t & k & E)];
           cbn [invoked client] in E; rewrite E; unfold evolves; eauto
       end.
Qed.

Lemma for_range_evolves (retry : bool) (m : Method) (req : Request) (l : list nat) :
  forall w r w',
    for_range (handler_body env retry (decorated env m) req) l w = (r, w') ->
    evolves (client w) (client w').
Proof.
  induction l as [|i l IH]; intros w r w' H.
  - cbn in H. pair_eq H. apply evolves_refl.
  - rewrite for_range_cons in H.
    destruct (handler_body env retry (decorated env m) req i w) as [[[v|]|ex] w1] eqn:B;
      apply body_evolves in B.
    + now pair_eq H.
    + apply IH in H. exact (evolves_trans _ _ _ B H).
    + now pair_eq H.
Qed.

Lemma call_evolves (m : Method) (req : Request) (w : World) :
  evolves (client w) (client (snd (call env m req w))).
Proof.
  unfold call, _handle_rpc_error.
  destruct (for_range (handler_body env (retry_of m) (decorated env m) req)
              (seq 0 max_retries) w) as [r w'] eqn:H.
  apply for_range_evolves in H. exact H.
Qed.

(** X19. A call of a wrapped method never changes the PublicClientConfig nor
    the OAuth2Metadata of the client, and it leaves the metadata as they were
    or replaces them by one pair whose value is ["Bearer "] followed by a
    token. *)
Theorem call_only_replaces_credentials (m : Method) (req : Request) (w : World) :
  let w' := snd (call env m req w) in
  _public_client_config (client w') = _public_client_config (client w)
  /\ _oauth2_metadata (client w') = _oauth2_metadata (client w)
  /\ (_metadata (client w') = _metadata (client w)
      \/ exists t k, _metadata (client w') = Some [(k, "Bearer " ++ t)]).
Proof.
  cbv zeta. destruct (call_evolves m req w) as [H|(t & k & H)]; rewrite H.
  - auto.
  - repeat split. right. exists t, k. reflexivity.
Qed.

(** The worlds that a program can reach from a new client by calls of wrapped
    methods and by [set_access_token]. *)
Inductive reachable : World -> Prop :=
| reachable_new (pcc : option PublicClientAuthConfigResponse)
    (oam : option OAuth2MetadataResponse) :
    reachable (initial_world (new_client pcc oam))
| reachable_call (w : World) (m : Method) (req : Request) :
    reachable w -> reachable (snd (call env m req w))
| reachable_set (w : World) (t : string) (k : option string) :
    reachable w ->
    reachable {| client := set_access_token (client w) t k;
                 auth_client := auth_client w;
                 rpc_calls := rpc_calls w; trace := trace w |}.

(** X20. On every client that is reached from a new one by calls of wrapped
    methods and by [set_access_token], the metadata are absent or have the
    shape that [set_access_token] gives them, so that [check_access_token]
    never raises. *)
Theorem check_access_token_never_raises (w : World) :
  reachable w ->
  credentials_shape (client w)
  /\ forall c, exists b, check_access_token (client w) c = inr b.
Proof.
  intro R.
  assert (S : credentials_shape (client w)).
  { induction R as [pcc oam|w m req _ IH|w t k _ IH].
    - now left.
    - exact (evolves_shape _ _ (call_evolves m req w) IH).
    - right. exists t, k. reflexivity. }
  split; [exact S|]. intro c. unfold check_access_token.
  destruct S as [-> | (t & k & ->)]; eexists; reflexivity.
Qed.

End ClientInvariant.

(** X21. After two [set_access_token], [check_access_token] recognises the
    second token only (for a token in which ["Bearer "] does not occur): the
    credentials are replaced as a whole. *)
Theorem check_recognises_last_token (self : RawSynchronousFlyteClient)
    (t1 t2 c : string) (k1 k2 : option string) :
  PyStr.contains "Bearer " t2 = false ->
  (check_access_token (set_access_token (set_access_token self t1 k1) t2 k2) c = inr true
   <-> c = t2).
Proof. intro H. now apply check_after_set_plain. Qed.

(** ** More concrete inputs *)

Module Cases.

Import Demo.

Definition answer_ok : HttpResponse :=
  {| status_code := 200; text := "";
     json := Some [("access_token", JStr "idp-token"); ("expires_in", JNum 3600)] |}.

Definition answer_without_expiry : HttpResponse :=
  {| status_code := 200; text := "";
     json := Some [("access_token", JStr "idp-token")] |}.

Definition answer_500 : HttpResponse :=
  {| status_code := 500; text := "down"; json := None |}.

Definition exit_with (rc : Z) (out : string) : Exn + CompletedProcess :=
  inr {| returncode := rc; stdout := out; stderr := "" |}.

Definition cached (t : string) : AuthorizationClient :=
  {| has_valid_credentials := true; can_refresh_token := true; credentials := Some t |}.

Definition cleared : AuthorizationClient :=
  {| has_valid_credentials := false; can_refresh_token := false; credentials := None |}.

(** An environment given by its mode, its secret, the answers of the stub, the
    answer of the token endpoint, the outcome of the command and the
    persistent client that [get_client] creates. *)
Definition make (mode : string) (secret : option string)
    (script : list (RpcError + string)) (answer : HttpResponse)
    (outcome : Exn + CompletedProcess) (persistent : AuthorizationClient)
  : Environment string string :=
  {| AUTH_MODE := mode;
     SCOPES := [];
     CLIENT_ID := Some "cid";
     CLIENT_CREDENTIALS_SECRET := secret;
     COMMAND := ["print-token"];
     stub := fun _ k _ _ => nth k script (inr "done");
     requests_post := fun _ _ _ => answer;
     subprocess_run := fun _ => outcome;
     str_CalledProcessError := fun _ _ => "non-zero exit status";
     get_client := fun _ _ _ _ _ o =>
       match o with Some a => a | None => persistent end;
     refresh_access_token := fun _ => inr (cached "refreshed");
     start_authorization_flow := fun _ => inr (cached "interactive");
     clear := fun _ => cleared |}.

Definition env_unknown_mode : Environment string string :=
  make "none" (Some "sec") [inl unauthenticated; inr "page"] answer_ok
    (exit_with 0 "t") cleared.

Definition env_basic_down : Environment string string :=
  make "basic" (Some "sec") [inl unauthenticated; inr "page"] answer_500
    (exit_with 0 "t") cleared.

Definition env_basic : Environment string string :=
  make "basic" (Some "sec") [] answer_ok (exit_with 0 "t") cleared.

Definition env_basic_no_secret : Environment string string :=
  make "basic" None [] answer_ok (exit_with 0 "t") cleared.

Definition env_basic_no_expiry : Environment string string :=
  make "basic" (Some "sec") [] answer_without_expiry (exit_with 0 "t") cleared.

Definition env_auth_then_flaky : Environment string string :=
  make "external_process" (Some "sec")
    [inl unauthenticated; inl unavailable; inr "page"] answer_ok
    (exit_with 0 " cmd-token ") cleared.

Definition env_flaky_then_auth : Environment string string :=
  make "external_process" (Some "sec")
    [inl unavailable; inl unavailable; inl unauthenticated] answer_ok
    (exit_with 0 " cmd-token ") cleared.

Definition env_command_fails : Environment string string :=
  make "external_process" (Some "sec") [] answer_ok (exit_with 1 "") cleared.

Definition env_command_missing : Environment string string :=
  make "external_process" (Some "sec") [] answer_ok
    (inl (OSError "No such file or directory: 'print-token'")) cleared.

Definition env_standard_cached : Environment string string :=
  make "standard" (Some "sec") [] answer_ok (exit_with 0 "t") (cached "keyring").

Definition env_standard_fresh : Environment string string :=
  make "standard" (Some "sec") [] answer_ok (exit_with 0 "t") cleared.

(** The world after one failed attempt of [get_task] and one refresh by the
    command. *)
Definition after_refresh : World :=
  {| client := set_access_token (client w0) "cmd-token" (Some "authorization");
     auth_client := None; rpc_calls := 1;
     trace := [Invoke get_task None; Refresh refresh_from_command;
               Run ["print-token"]] |}.

End Cases.

Lemma handle_rpc_error_returns_last_answer_witness :
  call Runs.env_flaky get_task "req" Demo.w0
    = (Ok (VResponse "page"),
       invoked get_task (slept 400 (invoked get_task (slept 200 (invoked get_task Demo.w0)))))
  /\ exists x,
      stub Runs.env_flaky get_task 2 None "req" = inr x /\ VResponse "page" = VResponse x.
Proof.
  split; [reflexivity|].
  destruct (handle_rpc_error_returns_last_answer Runs.env_flaky get_task "req" Demo.w0
              _ (VResponse "page") eq_refl) as (x & Hx & Hv & _).
  exists x. split; [exact Hx|exact Hv].
Defined.

Lemma unauthenticated_with_unknown_mode_witness :
  stub Cases.env_unknown_mode create_task 0 None "req" = inl Demo.unauthenticated
  /\ exists msg,
      call Cases.env_unknown_mode create_task "req" Demo.w0
      = (Raised (ValueError msg), invoked create_task Demo.w0).
Proof.
  split; [reflexivity|].
  apply (unauthenticated_with_unknown_mode Cases.env_unknown_mode false create_task
           "req" Demo.w0 Demo.unauthenticated); try reflexivity;
    intro H; discriminate H.
Defined.

Lemma refresh_failure_ends_the_call_witness :
  _get_refresh_handler (AUTH_MODE Cases.env_basic_down) = inr refresh_basic
  /\ exists w',
      call Cases.env_basic_down get_task "req" Demo.w0
      = (Raised (FlyteAuthenticationException "Non-200 received from IDP"), w')
      /\ rpc_calls w' = 1.
Proof.
  split; [reflexivity|].
  eexists. 
  destruct (refresh_failure_ends_the_call Cases.env_basic_down true get_task "req"
              Demo.w0 _ Demo.unauthenticated refresh_basic
              (FlyteAuthenticationException "Non-200 received from IDP")
              eq_refl eq_refl eq_refl eq_refl) as (Hres & _ & Hrc).
  split; [exact Hres|exact Hrc].
Defined.

Lemma backoff_after_refresh_witness :
  unauthenticated_rounds Cases.env_auth_then_flaky get_task "req" 1 Demo.w0
    = Some Cases.after_refresh
  /\ call Cases.env_auth_then_flaky get_task "req" Demo.w0
     = (Ok (VResponse "page"),
        invoked get_task (slept 400 (invoked get_task Cases.after_refresh)))
  /\ sleeps (trace (invoked get_task (slept 400 (invoked get_task Cases.after_refresh))))
     = [400%Z].
Proof.
  split; [reflexivity|].
  apply (backoff_after_refresh Cases.env_auth_then_flaky get_task "req" Demo.w0
           Cases.after_refresh Demo.unavailable "page"); reflexivity.
Defined.

Lemma unauthenticated_on_last_attempt_witness :
  exists w',
    call Cases.env_flaky_then_auth get_task "req" Demo.w0
    = (Raised (FlyteAuthenticationException "token expired"), w')
    /\ client w' = client Demo.w0
    /\ refreshes (trace w') = [].
Proof.
  destruct (unauthenticated_on_last_attempt Cases.env_flaky_then_auth get_task "req"
              Demo.w0 Demo.unavailable Demo.unavailable Demo.unauthenticated
              eq_refl eq_refl eq_refl eq_refl eq_refl eq_refl)
    as (w' & Hres & Hc & _ & Hr).
  exists w'. split; [exact Hres|]. split; [exact Hc|exact Hr].
Defined.


Lemma refresh_basic_success_witness :
  status_code (basic_response Cases.env_basic Demo.oam Demo.pcc "sec") = 200%Z
  /\ exists w',
      _refresh_credentials_basic Cases.env_basic Demo.w0 = (Ok tt, w')
      /\ _metadata (client w')
         = Some [(Some "flyte-authorization", "Bearer idp-token")]
      /\ trace w'
         = [Post "https://idp/token"
              [("grant_type", "client_credentials"); ("scope", "offline,all")]
              [("Authorization", "Basic Y2lkOnNlYw=="); ("Cache-Control", "no-cache");
               ("Accept", "application/json");
               ("Content-Type", "application/x-www-form-urlencoded")]].
Proof.
  split; [reflexivity|].
  destruct (refresh_basic_success Cases.env_basic Demo.w0 Demo.oam Demo.pcc "sec"
              [("access_token", JStr "idp-token"); ("expires_in", JNum 3600)]
              (JStr "idp-token") (JNum 3600)
              eq_refl eq_refl eq_refl eq_refl eq_refl eq_refl eq_refl)
    as (w' & Hres & Ht & Hm & _).
  exists w'. split; [exact Hres|]. split; [exact Hm|exact Ht].
Defined.

Lemma refresh_basic_without_secret_witness :
  CLIENT_CREDENTIALS_SECRET Cases.env_basic_no_secret = None
  /\ _refresh_credentials_basic Cases.env_basic_no_secret Demo.w0
     = (Raised (FlyteAuthenticationException "No secret could be found"), Demo.w0).
Proof.
  split; [reflexivity|].
  apply (refresh_basic_without_secret Cases.env_basic_no_secret Demo.w0 Demo.oam
           Demo.pcc eq_refl eq_refl). left. reflexivity.
Defined.

Lemma refresh_basic_without_expires_in_witness :
  dict_get "expires_in" [("access_token", JStr "idp-token")] = inl (KeyError "expires_in")
  /\ exists w',
      _refresh_credentials_basic Cases.env_basic_no_expiry Demo.w0
      = (Raised (KeyError "expires_in"), w')
      /\ client w' = client Demo.w0.
Proof.
  split; [reflexivity|].
  apply (refresh_basic_without_expires_in Cases.env_basic_no_expiry Demo.w0 Demo.oam
           Demo.pcc "sec" [("access_token", JStr "idp-token")] (JStr "idp-token")
           (KeyError "expires_in")); reflexivity.
Defined.

Lemma refresh_from_command_nonzero_exit_witness :
  subprocess_run Cases.env_command_fails ["print-token"] = Cases.exit_with 1 ""
  /\ exists w',
      _refresh_credentials_from_command Cases.env_command_fails Demo.w0
      = (Raised (FlyteAuthenticationException
           "Problems refreshing token with command: non-zero exit status"), w')
      /\ client w' = client Demo.w0.
Proof.
  split; [reflexivity|].
  destruct (refresh_from_command_nonzero_exit Cases.env_command_fails Demo.w0
              {| returncode := 1; stdout := ""; stderr := "" |} eq_refl)
    as (w' & Hres & Hc & _).
  - simpl. lia.
  - exists w'. split; [exact Hres|exact Hc].
Defined.

Lemma refresh_from_command_not_started_witness :
  subprocess_run Cases.env_command_missing ["print-token"]
    = inl (OSError "No such file or directory: 'print-token'")
  /\ exists w',
      _refresh_credentials_from_command Cases.env_command_missing Demo.w0
      = (Raised (OSError "No such file or directory: 'print-token'"), w')
      /\ client w' = client Demo.w0.
Proof.
  split; [reflexivity|].
  apply (refresh_from_command_not_started Cases.env_command_missing Demo.w0
           (OSError "No such file or directory: 'print-token'") eq_refl).
  intros c rc H. discriminate H.
Defined.

Lemma refresh_standard_adopts_witness :
  standard_client Cases.env_standard_cached Demo.w0 Demo.oam Demo.pcc
    = Cases.cached "keyring"
  /\ _refresh_credentials_standard Cases.env_standard_cached Demo.w0
     = (Ok tt,
        {| client := set_access_token (client Demo.w0) "keyring"
                       (Some "flyte-authorization");
           auth_client := Some Cases.cleared; rpc_calls := 0; trace := [] |}).
Proof.
  split; [reflexivity|].
  apply (refresh_standard_adopts Cases.env_standard_cached Demo.w0 Demo.oam Demo.pcc
           "keyring"); reflexivity.
Defined.

Lemma refresh_standard_renews_witness :
  has_valid_credentials
    (standard_client Cases.env_standard_fresh Demo.w0 Demo.oam Demo.pcc) = false
  /\ _refresh_credentials_standard Cases.env_standard_fresh Demo.w0
     = (Ok tt,
        {| client := set_access_token (client Demo.w0) "interactive"
                       (Some "flyte-authorization");
           auth_client := Some (Cases.cached "interactive");
           rpc_calls := 0; trace := [] |}).
Proof.
  split; [reflexivity|].
  apply (proj1 (refresh_standard_renews Cases.env_standard_fresh Demo.w0 Demo.oam
                  Demo.pcc eq_refl eq_refl (or_introl eq_refl))
           (Cases.cached "interactive") "interactive"); reflexivity.
Defined.

Lemma check_access_token_never_raises_witness :
  reachable Runs.env_command
    (snd (call Runs.env_command list_tasks_paginated "req" Demo.w0))
  /\ exists b,
      check_access_token
        (client (snd (call Runs.env_command list_tasks_paginated "req" Demo.w0)))
        "cmd-token" = inr b.
Proof.
  assert (R : reachable Runs.env_command
                (snd (call Runs.env_command list_tasks_paginated "req" Demo.w0))).
  { apply reachable_call. apply (reachable_new _ (Some Demo.pcc) (Some Demo.oam)). }
  split; [exact R|].
  exact (proj2 (check_access_token_never_raises Runs.env_command _ R) "cmd-token").
Defined.

Lemma check_recognises_last_token_witness :
  PyStr.contains "Bearer " "new" = false
  /\ (check_access_token
        (set_access_token (set_access_token (new_client None None) "old" None)
           "new" (Some "authorization")) "new" = inr true <-> "new" = "new").
Proof.
  split; [reflexivity|].
  apply (check_recognises_last_token (new_client None None) "old" "new" "new").
  reflexivity.
Defined.

(** ** The JSON iterator *)

Section JsonIteratorProperties.

Import JsonIterator.

Variable JSON : Type.
Variable str_self : string.
Variable str_literal_type : LiteralType -> string.
Variable str_cannot_convert : Literal -> string.
Variable remote_path : string.
Variable open_read : string -> Error + list JSON.

Lemma write_all_spec (l : list JSON) :
  forall empty,
    write_all JSON l empty
    = (match l with [] => empty | _ :: _ => false end, map Write l).
Proof.
  induction l as [|x l IH]; intro empty; cbn [write_all map]; [reflexivity|].
  rewrite IH. destruct l; reflexivity.
Qed.

Lemma collect_pending (l : list JSON) :
  forall c fuel,
    length l < fuel ->
    collect JSON fuel {| pending := l; closed := c |}
    = (Some (inr l), {| pending := []; closed := true |}).
Proof.
  induction l as [|x l IH]; intros c fuel Hf; destruct fuel as [|fuel];
    try (exfalso; cbn in Hf; lia); cbn [collect].
  - reflexivity.
  - unfold __next__, reader_next. cbn [pending closed].
    rewrite IH by (cbn in Hf; lia). reflexivity.
Qed.

(** X22. The literal type that the transformer declares is one that it
    recognises; it recognises exactly the blob types of dimensionality SINGLE
    and format ["JSONL"] (compared as written, so not ["jsonl"]), and raises
    [ValueError] on every other literal type. *)
Theorem guess_python_type_recognises (literal_type : LiteralType) :
  guess_python_type str_self str_literal_type get_literal_type = inr JSONIterator_class
  /\ (guess_python_type str_self str_literal_type literal_type = inr JSONIterator_class
      <-> exists b, blob literal_type = Some b
                    /\ dimensionality b = SINGLE /\ format b = "JSONL")
  /\ (guess_python_type str_self str_literal_type literal_type <> inr JSONIterator_class
      -> exists msg, guess_python_type str_self str_literal_type literal_type
                     = inl (ValueError msg)).
Proof.
  split; [reflexivity|]. unfold guess_python_type, JSON_ITERATOR_FORMAT.
  destruct (blob literal_type) as [b|].
  - destruct (dimensionality b) eqn:Ed; cbn [BlobDimensionality_eqb andb].
    + destruct (String.eqb_spec (format b) "JSONL") as [Ef|Ef].
      * split; [|intro H; now elim H].
        split; [intros _; exists b; auto|reflexivity].
      * split; [|intros _; eexists; reflexivity].
        split; [intro H; discriminate H|].
        intros (b' & Hb & _ & Hf). injection Hb as <-. now elim Ef.
    + split; [|intros _; eexists; reflexivity].
      split; [intro H; discriminate H|].
      intros (b' & Hb & Hd & _). injection Hb as <-. congruence.
  - split; [|intros _; eexists; reflexivity].
    split; [intro H; discriminate H|]. intros (b & Hb & _). discriminate Hb.
Qed.

(** X23. Iterating a [JSONIterator] to the end gives the values of the reader
    in order and closes the reader; the reader is closed by the call that
    meets the end, not before, and every later call raises [StopIteration]
    again. *)
Theorem json_iterator_drains (l : list JSON) (c : bool) (fuel : nat) :
  length l < fuel ->
  collect JSON fuel {| pending := l; closed := c |}
    = (Some (inr l), {| pending := []; closed := true |})
  /\ (forall x rest,
        __next__ JSON {| pending := x :: rest; closed := c |}
        = (inr x, {| pending := rest; closed := c |}))
  /\ __next__ JSON {| pending := []; closed := c |}
     = (inl (StopIteration "File handler is exhausted"),
        {| pending := []; closed := true |}).
Proof.
  intro Hf. split; [now apply collect_pending|]. split; reflexivity.
Qed.

(** X24. [to_literal] opens the remote file, writes every value of the
    iterator in order and closes the writer and the file; on an iterator
    without values it then raises [ValueError], the empty file having been
    created; otherwise it returns a blob literal whose uri is the path of the
    remote file and whose type is the one of [get_literal_type]. *)
Theorem to_literal_writes_all (python_val : list JSON) :
  snd (to_literal JSON remote_path python_val)
    = ([OpenWrite remote_path] ++ map Write python_val
         ++ [CloseWriter; CloseFile remote_path])%list
  /\ (python_val = [] ->
      fst (to_literal JSON remote_path python_val)
      = inl (ValueError "The iterator is empty."))
  /\ (python_val <> [] ->
      exists b,
        fst (to_literal JSON remote_path python_val)
          = inr {| scalar := Some {| blob' := Some b |} |}
        /\ uri b = remote_path
        /\ Some (type (metadata b)) = blob get_literal_type).
Proof.
  unfold to_literal. rewrite write_all_spec.
  destruct python_val as [|x l].
  - split; [reflexivity|]. split; [reflexivity|]. intro H. now elim H.
  - split; [reflexivity|]. split; [intro H; discriminate H|].
    intros _. eexists. split; [reflexivity|]. split; reflexivity.
Qed.


End JsonIteratorProperties.

(** ** The sensor engine *)

Section SensorEngineProperties.

Import SensorEngine.

Variables PyObj PyModule SensorDef : Type.
Variables SENSOR_MODULE SENSOR_NAME SENSOR_CONFIG_PKL INPUTS : string.
Variable truthy : PyObj -> bool.
Variable empty_dict : PyObj.
Variable loads : string -> Error + list (string * PyObj).
Variable import_module : PyObj -> Error + PyModule.
Variable getattr : PyModule -> PyObj -> Error + SensorDef.
Variable decode : PyObj -> Error + PyObj.
Variable poke : SensorDef -> option PyObj -> PyObj -> Error + bool.

(** X26. Whenever [async_get] returns, the state of the resource is SUCCEEDED,
    the message is ["Sensor is running"] and the log links are the console
    link followed by the success link, whatever [poke] answered: the state
    computed from [poke] is overwritten before it is used. *)
Theorem async_get_reports_succeeded (resource_meta : string) (resp : GetTaskResponse) :
  async_get PyObj PyModule SensorDef SENSOR_MODULE SENSOR_NAME SENSOR_CONFIG_PKL INPUTS
    truthy empty_dict loads import_module getattr decode poke resource_meta = inr resp ->
  state (resource resp) = SUCCEEDED
  /\ message (resource resp) = "Sensor is running"
  /\ log_links resp = [{| uri := "sensor.com"; name := "Sensor Console" |};
                       {| uri := "sensor.com"; name := "Sensor SUCCEEDED" |}].
Proof.
  unfold async_get, bind. intro H. cbv zeta in H. cbn [State_eqb] in H.
  repeat match type of H with
         | context [match ?x with _ => _ end] =>
             lazymatch x with
             | context [match _ with _ => _ end] => fail
             | _ => destruct x; try discriminate H
             end
         end.
  all: injection H as <-; repeat split.
Qed.

End SensorEngineProperties.

Module MoreCases.

Definition jsonl : JsonIterator.LiteralType :=
  {| JsonIterator.blob :=
       Some {| JsonIterator.format := "jsonl";
               JsonIterator.dimensionality := JsonIterator.SINGLE |} |}.


Definition meta : list (string * string) :=
  [("sensor_module", "my.sensors"); ("sensor_name", "FileSensor")].

(** A sensor whose [poke] answers [False]. *)
Definition async_get : string -> SensorEngine.Error + SensorEngine.GetTaskResponse :=
  SensorEngine.async_get string unit unit
    "sensor_module" "sensor_name" "sensor_config_pkl" "inputs"
    (fun s => negb (String.eqb s "")) "{}"
    (fun _ => inr meta) (fun _ => inr tt) (fun _ _ => inr tt) (fun s => inr s)
    (fun _ _ _ => inr false).

End MoreCases.

Lemma guess_python_type_recognises_witness :
  JsonIterator.guess_python_type "t" (fun _ => "lt") MoreCases.jsonl
    <> inr JsonIterator.JSONIterator_class
  /\ exists msg,
      JsonIterator.guess_python_type "t" (fun _ => "lt") MoreCases.jsonl
      = inl (JsonIterator.ValueError msg).
Proof.
  assert (H : JsonIterator.guess_python_type "t" (fun _ => "lt") MoreCases.jsonl
              <> inr JsonIterator.JSONIterator_class) by (intro F; discriminate F).
  split; [exact H|].
  exact (proj2 (proj2 (guess_python_type_recognises "t" (fun _ => "lt")
                         MoreCases.jsonl)) H).
Defined.

Lemma json_iterator_drains_witness :
  length [1; 2; 3] < 4
  /\ JsonIterator.collect nat 4
       {| JsonIterator.pending := [1; 2; 3]; JsonIterator.closed := false |}
     = (Some (inr [1; 2; 3]),
        {| JsonIterator.pending := []; JsonIterator.closed := true |}).
Proof.
  assert (H : length [1; 2; 3] < 4) by (simpl; lia).
  split; [exact H|].
  exact (proj1 (json_iterator_drains nat [1; 2; 3] false 4 H)).
Defined.

Lemma to_literal_writes_all_witness :
  ([] : list nat) = []
  /\ JsonIterator.to_literal nat "s3://bucket/f" []
     = (inl (JsonIterator.ValueError "The iterator is empty."),
        [JsonIterator.OpenWrite "s3://bucket/f"; JsonIterator.CloseWriter;
         JsonIterator.CloseFile "s3://bucket/f"]).
Proof.
  split; [reflexivity|].
  destruct (to_literal_writes_all nat "s3://bucket/f" []) as (Hev & Hempty & _).
  rewrite (surjective_pairing (JsonIterator.to_literal nat "s3://bucket/f" [])).
  rewrite Hev, (Hempty eq_refl). reflexivity.
Defined.


Lemma async_get_reports_succeeded_witness :
  exists resp,
    MoreCases.async_get "meta" = inr resp
    /\ SensorEngine.state (SensorEngine.resource resp) = SensorEngine.SUCCEEDED.
Proof.
  eexists. split; [reflexivity|].
  apply (async_get_reports_succeeded string unit unit
           "sensor_module" "sensor_name" "sensor_config_pkl" "inputs"
           (fun s => negb (String.eqb s "")) "{}"
           (fun _ => inr MoreCases.meta) (fun _ => inr tt) (fun _ _ => inr tt)
           (fun s => inr s) (fun _ _ _ => inr false) "meta" _ eq_refl).
Defined.

(** The command prints NBSP, ["tok"], NEL. *)
Definition env_padded_token : Environment string string :=
  Cases.make "external_process" None [] Cases.answer_ok
    (Cases.exit_with 0 (Utf8.encode [160; 116; 111; 107; 133]%N)) Cases.cleared.

Example strip_nbsp_nel :
  PyStr.strip (Utf8.encode [160; 116; 111; 107; 133]%N) = "tok"
  /\ PyText.strip [160; 116; 111; 107; 133]%N = [116; 111; 107]%N
  /\ PyStr.strip (Utf8.encode [8232; 12288; 32; 8364; 32; 128512; 9; 5760; 8287]%N)
     = Utf8.encode [8364; 32; 128512]%N.
Proof. repeat split. Qed.

Lemma refresh_from_command_stores_stdout_witness :
  Forall Utf8.scalar [160; 116; 111; 107; 133]%N
  /\ subprocess_run env_padded_token (COMMAND env_padded_token)
     = Cases.exit_with 0 (Utf8.encode [160; 116; 111; 107; 133]%N)
  /\ exists w',
      _refresh_credentials_from_command env_padded_token Runs.w_no_pcc = (Ok tt, w')
      /\ _metadata (client w') = Some [(Some "authorization", "Bearer tok")].
Proof.
  assert (S : Forall Utf8.scalar [160; 116; 111; 107; 133]%N)
    by (repeat constructor; unfold Utf8.scalar; lia).
  split; [exact S|]. split; [reflexivity|].
  destruct (refresh_from_command_stores_stdout env_padded_token Runs.w_no_pcc
              {| returncode := 0;
                 stdout := Utf8.encode [160; 116; 111; 107; 133]%N;
                 stderr := "" |}
              [160; 116; 111; 107; 133]%N eq_refl eq_refl S eq_refl)
    as (w' & Hres & Hm & _).
  exists w'. split; [exact Hres|exact Hm].
Defined.
